(** * MathGraph: config normalisation, series processing and render lifecycle

    A shallow embedding of the [MathGraph] React component
    (function-plot wrapper): the values [JSON.parse] hands to the
    component, the normalisation of the legacy and the advanced input
    shape, the per-series defaults computed by [processedData], the
    [drawGraph] pass with its [try]/[catch], and the two effects (the
    [ResizeObserver] and the frame-scheduled draw).

    JavaScript objects and arrays live in a store and are referred to by
    location, so that sharing between the input and the processed series is
    visible.  Numbers are exact rationals (the component only tests them
    for zero, for sign and for equality with [2]); a string is a sequence
    of characters, one per code unit. *)

From Stdlib Require Import ZArith QArith Lia Ascii.
From stdpp Require Import base option list gmap strings pretty.

Close Scope Q_scope.
Local Open Scope nat_scope.

(** ** Values and the store *)

Module Js.

Abbreviation loc := nat.

Inductive val :=
| VUndef
| VNull
| VBool (b : bool)
| VNum (q : Q)
| VStr (s : string)
| VRef (l : loc).

Inductive obj :=
| OArr (elems : list val)
| OObj (props : gmap string val).

Abbreviation heap := (list obj).

(** What a [throw] carries, as far as [catch (e)] of the component looks at
    it: [e instanceof Error] and, if so, [e.message]. *)
Inductive exn :=
| ErrorObj (message : string)
| OtherValue.

Inductive res (A : Type) :=
| Ok (a : A)
| Throw (e : exn).
Arguments Ok {A} a.
Arguments Throw {A} e.

(** Computations over a state [S] that may throw; what was done to the
    state before a [throw] stays done. *)
Definition ST (S A : Type) : Type := S -> res A * S.

Definition ret {S A} (a : A) : ST S A := fun s => (Ok a, s).

Definition bind {S A B} (m : ST S A) (f : A -> ST S B) : ST S B :=
  fun s => match m s with
           | (Ok a, s') => f a s'
           | (Throw e, s') => (Throw e, s')
           end.

Definition throw {S A} (e : exn) : ST S A := fun s => (Throw e, s).

(** Computations that allocate in the store. *)
Abbreviation M := (ST heap).

Notation "'let*' x ':=' m 'in' k" := (bind m (fun x => k))
  (at level 10, x name, m at level 100, k at level 200,
   format "'[v' 'let*'  x  ':='  m  'in' '/' k ']'").

(** A computation that leaves the store as it is but for what it adds. *)
Definition allocates {A} (m : M A) : Prop :=
  forall h r h', m h = (r, h') -> exists t, h' = h ++ t.

(** An object or array literal: a new location, past every existing one. *)
Definition alloc (o : obj) : M val :=
  fun h => (Ok (VRef (length h)), h ++ [o]).

Definition deref (h : heap) (v : val) : option obj :=
  match v with
  | VRef l => h !! l
  | _ => None
  end.

(** A value that does not point outside the store. *)
Definition valid (h : heap) (v : val) : Prop :=
  match v with
  | VRef l => l < length h
  | _ => True
  end.

(** The values an object or array holds. *)
Definition values (o : obj) : list val :=
  match o with
  | OArr xs => xs
  | OObj m => (map_to_list m).*2
  end.

(** A store none of whose objects points outside it. *)
Definition closed (h : heap) : Prop :=
  forall l o v, h !! l = Some o -> v ∈ values o -> valid h v.

(** [Array.isArray] *)
Definition isArray (h : heap) (v : val) : bool :=
  match deref h v with
  | Some (OArr _) => true
  | _ => false
  end.

(** ToBoolean.  [JSON.parse] yields no NaN. *)
Definition truthy (v : val) : bool :=
  match v with
  | VUndef | VNull => false
  | VBool b => b
  | VNum q => negb (Qeq_bool q 0)
  | VStr s => negb (String.eqb s "")
  | VRef _ => true
  end.

(** [a || b], both operands already values. *)
Definition or_else (a b : val) : val := if truthy a then a else b.

(** [a === b] *)
Definition strict_eq (a b : val) : bool :=
  match a, b with
  | VUndef, VUndef => true
  | VNull, VNull => true
  | VBool x, VBool y => Bool.eqb x y
  | VNum x, VNum y => Qeq_bool x y
  | VStr x, VStr y => String.eqb x y
  | VRef x, VRef y => Nat.eqb x y
  | _, _ => false
  end.

(** The decimal numeral of an index. *)
Definition string_of_nat (n : nat) : string := pretty n.

Definition num_of_nat (n : nat) : val := VNum (inject_Z (Z.of_nat n)).

(** The index properties ["0"], ["1"], ... of an array or a string. *)
Definition index_props (xs : list val) : gmap string val :=
  list_to_map (imap (fun i x => (string_of_nat i, x)) xs).

Definition chars (s : string) : list val :=
  (fun c => VStr (String c "")) <$> String.list_ascii_of_string s.

(** The own enumerable properties, as the spread [{...v}] copies them. *)
Definition own_props (h : heap) (v : val) : gmap string val :=
  match v with
  | VStr s => index_props (chars s)
  | VRef l =>
      match h !! l with
      | Some (OArr xs) => index_props xs
      | Some (OObj m) => m
      | None => ∅
      end
  | _ => ∅
  end.

(** [{...v}] *)
Definition spread (v : val) : M (gmap string val) :=
  fun h => (Ok (own_props h v), h).

(** [v[k]] for a [v] that is neither [null] nor [undefined].  None of the
    property names the component reads is defined on a prototype, so a
    property that is not an own property reads as [undefined]. *)
Definition prop_of (h : heap) (v : val) (k : string) : val :=
  match v with
  | VStr s =>
      if String.eqb k "length" then num_of_nat (String.length s)
      else default VUndef (index_props (chars s) !! k)
  | VRef l =>
      match h !! l with
      | Some (OArr xs) =>
          if String.eqb k "length" then num_of_nat (length xs)
          else default VUndef (index_props xs !! k)
      | Some (OObj m) => default VUndef (m !! k)
      | None => VUndef
      end
  | _ => VUndef
  end.

(** The message of the TypeError raised by a property read on [null] or
    [undefined] (V8's wording; the component only shows it). *)
Definition type_error_message (v : val) (k : string) : string :=
  "Cannot read properties of "
    +:+ (match v with VNull => "null" | _ => "undefined" end)
    +:+ " (reading '" +:+ k +:+ "')".

(** [v.k] and [v[i]] *)
Definition get (v : val) (k : string) : M val :=
  match v with
  | VUndef | VNull => throw (ErrorObj (type_error_message v k))
  | _ => fun h => (Ok (prop_of h v k), h)
  end.

(** [v?.k] *)
Definition get_opt (v : val) (k : string) : M val :=
  match v with
  | VUndef | VNull => ret VUndef
  | _ => fun h => (Ok (prop_of h v k), h)
  end.

(** [arr.map(f)], where [f] receives the element and its index. *)
Fixpoint map_from (f : val -> nat -> M val) (xs : list val) (i : nat)
  : M (list val) :=
  match xs with
  | [] => ret []
  | x :: xs' =>
      let* y := f x i in
      let* ys := map_from f xs' (S i) in
      ret (y :: ys)
  end.

Definition array_map (f : val -> nat -> M val) (arr : val) : M val :=
  fun h =>
    match deref h arr with
    | Some (OArr xs) => (let* ys := map_from f xs 0 in alloc (OArr ys)) h
    | _ =>
        match arr with
        | VUndef | VNull => throw (ErrorObj (type_error_message arr "map")) h
        | _ => throw (ErrorObj "config.data.map is not a function") h
        end
    end.

End Js.

(** ** The component's data: palette, normalisation, series processing *)

Module MathGraph.
Import Js.

Definition LEGEND_COLORS : list string :=
  [ "#2563eb"   (* Blue *)
  ; "#dc2626"   (* Red *)
  ; "#16a34a"   (* Green *)
  ; "#9333ea"   (* Purple *)
  ; "#ea580c"   (* Orange *)
  ; "#0891b2"   (* Cyan *)
  ; "#db2777"   (* Pink *)
  ].

(** The values the type [FunctionItem] allows for [fnType]. *)
Definition fnTypes : list string :=
  ["linear"; "implicit"; "parametric"; "points"; "vector"].

Definition is_fnType (v : val) : bool :=
  match v with
  | VStr s => bool_decide (s ∈ fnTypes)
  | _ => false
  end.

(** [LEGEND_COLORS[i]] *)
Definition palette_at (i : nat) : val :=
  match LEGEND_COLORS !! i with
  | Some c => VStr c
  | None => VUndef
  end.

(** The literal [[-10, 10]]. *)
Definition default_domain : obj :=
  OArr [VNum (inject_Z (-10)); VNum (inject_Z 10)].

(** Normalization: the decoded value itself when its [data] is an array,
    else the legacy shorthand turned into a one-series configuration. *)
Definition normalize (parsed : val) : M val :=
  let* data := get parsed "data" in
  fun h =>
    if isArray h data then ret parsed h
    else
      (let* fn := get parsed "fn" in
       let* label := get parsed "fn" in
       let* range := get parsed "range" in
       let* item :=
         alloc (OObj (<["range" := range]>
                     (<["label" := label]>
                     (<["graphType" := VStr "polyline"]>
                     (<["color" := palette_at 0]>
                     (<["fn" := or_else fn (VStr "x")]> ∅)))))) in
       let* series := alloc (OArr [item]) in
       let* domain := get parsed "domain" in
       let* xdom :=
         if truthy domain then ret domain else alloc default_domain in
       let* xAxis := alloc (OObj (<["domain" := xdom]> ∅)) in
       let* ydom := alloc default_domain in
       let* yAxis := alloc (OObj (<["domain" := ydom]> ∅)) in
       alloc (OObj (<["grid" := VBool true]>
                   (<["yAxis" := yAxis]>
                   (<["xAxis" := xAxis]>
                   (<["data" := series]> ∅)))))) h.

(** [item.vector ? [item.vector[0], item.vector[1]] : undefined] *)
Definition vector_of (item : val) : M val :=
  let* vector0 := get item "vector" in
  if truthy vector0 then
    let* v0 := get vector0 "0" in
    let* v1 := get vector0 "1" in
    alloc (OArr [v0; v1])
  else ret VUndef.

(** [fnType !== "implicit" && Array.isArray(item.range) &&
     item.range.length === 2 ? [item.range[0], item.range[1]] : undefined] *)
Definition range_of (fnType item : val) : M val :=
  let* range0 := get item "range" in
  fun h =>
    if negb (strict_eq fnType (VStr "implicit"))
       && isArray h range0
       && strict_eq (prop_of h range0 "length") (num_of_nat 2)
    then
      (let* r0 := get range0 "0" in
       let* r1 := get range0 "1" in
       alloc (OArr [r0; r1])) h
    else ret VUndef h.

(** The callback of [config.data.map]: one processed series. *)
Definition process_item (item : val) (index : nat) : M val :=
  let* fnType0 := get item "fnType" in
  let fnType := or_else fnType0 (VStr "linear") in
  let* graphType0 := get item "graphType" in
  let graphType :=
    if truthy graphType0 then graphType0
    else if strict_eq fnType (VStr "implicit") then VStr "interval"
    else if strict_eq fnType (VStr "points") then VStr "scatter"
    else VStr "polyline" in
  let* rest := spread item in
  let* color0 := get item "color" in
  let color :=
    or_else color0 (palette_at (index mod length LEGEND_COLORS)) in
  let* label0 := get item "label" in
  let* fn := get item "fn" in
  let label :=
    or_else label0
      (or_else fn (VStr ("Function " +:+ string_of_nat (index + 1)))) in
  let* vector := vector_of item in
  let* range := range_of fnType item in
  alloc (OObj (<["range" := range]>
              (<["vector" := vector]>
              (<["label" := label]>
              (<["color" := color]>
              (<["graphType" := graphType]>
              (<["fnType" := fnType]> rest))))))).

(** [processedData = config.data.map(...)] *)
Definition processedData (config : val) : M val :=
  let* data := get config "data" in
  array_map process_item data.

End MathGraph.

(** ** A JSON reader

    [JSON.parse] is the host's; the component is verified against any
    decoder (see [Section Component]).  This reader of the JSON grammar
    (RFC 8259) serves to run the component on concrete texts.  It reads a
    [\u] escape only up to [00FF], the range of a character here. *)

Module Json.
Import Js.

#[local] Unset Elimination Schemes.
Inductive json :=
| JNull
| JBool (b : bool)
| JNumber (q : Q)
| JString (s : string)
| JArray (elems : list json)
| JObject (members : list (string * json)).
#[local] Set Elimination Schemes.

Definition code (c : ascii) : nat := Ascii.nat_of_ascii c.

Definition is_ws (c : ascii) : bool :=
  let n := code c in
  (n =? 32) || (n =? 9) || (n =? 10) || (n =? 13).

Fixpoint skip_ws (l : list ascii) : list ascii :=
  match l with
  | c :: l' => if is_ws c then skip_ws l' else l
  | [] => []
  end.

(** Strip a literal prefix. *)
Fixpoint expect (p : list ascii) (l : list ascii) : option (list ascii) :=
  match p, l with
  | [], _ => Some l
  | a :: p', b :: l' => if Ascii.eqb a b then expect p' l' else None
  | _ :: _, [] => None
  end.

Definition digit (c : ascii) : option nat :=
  let n := code c in
  if (48 <=? n) && (n <=? 57) then Some (n - 48) else None.

Definition hex_digit (c : ascii) : option nat :=
  let n := code c in
  if (48 <=? n) && (n <=? 57) then Some (n - 48)
  else if (65 <=? n) && (n <=? 70) then Some (n - 55)
  else if (97 <=? n) && (n <=? 102) then Some (n - 87)
  else None.

(** A run of digits: its value on top of [acc], how many, and the rest. *)
Fixpoint digits (l : list ascii) (acc : Z) (n : nat)
  : Z * nat * list ascii :=
  match l with
  | c :: l' =>
      match digit c with
      | Some d => digits l' (10 * acc + Z.of_nat d)%Z (S n)
      | None => (acc, n, l)
      end
  | [] => (acc, n, [])
  end.

Definition pow10 (n : nat) : positive := Pos.pow 10 (Pos.of_nat n).

(** [m * 10^e / 10^k] *)
Definition scale (m : Z) (k : nat) (e : Z) : Q :=
  let q := if k is 0 then inject_Z m else Qmake m (pow10 k) in
  Qred
    (match e with
     | Z0 => q
     | Zpos p => Qmult q (inject_Z (Z.pow 10 (Zpos p)))
     | Zneg p => Qdiv q (inject_Z (Z.pow 10 (Zpos p)))
     end).

Definition parse_number (l : list ascii) : option (Q * list ascii) :=
  let '(neg, l) :=
    match l with
    | c :: l' => if code c =? 45 then (true, l') else (false, l)
    | [] => (false, l)
    end in
  (* int: "0" or a digit 1-9 followed by digits *)
  let int :=
    match l with
    | c :: l' =>
        if code c =? 48 then Some (0%Z, l')
        else match digit c with
             | Some _ => let '(m, _, r) := digits l 0%Z 0 in Some (m, r)
             | None => None
             end
    | [] => None
    end in
  match int with
  | None => None
  | Some (m, l) =>
      (* frac *)
      let frac :=
        match l with
        | c :: l' =>
            if code c =? 46 then
              match digits l' m 0 with
              | (_, 0, _) => None
              | (m', k, r) => Some (m', k, r)
              end
            else Some (m, 0, l)
        | [] => Some (m, 0, l)
        end in
      match frac with
      | None => None
      | Some (m, k, l) =>
          (* exp *)
          let exp :=
            match l with
            | c :: l' =>
                if (code c =? 101) || (code c =? 69) then
                  let '(eneg, l'') :=
                    match l' with
                    | s :: r =>
                        if code s =? 45 then (true, r)
                        else if code s =? 43 then (false, r)
                        else (false, l')
                    | [] => (false, l')
                    end in
                  match digits l'' 0%Z 0 with
                  | (_, 0, _) => None
                  | (e, _, r) => Some (if eneg then (- e)%Z else e, r)
                  end
                else Some (0%Z, l)
            | [] => Some (0%Z, l)
            end in
          match exp with
          | None => None
          | Some (e, r) =>
              Some (scale (if neg then (- m)%Z else m) k e, r)
          end
      end
  end.

(** The characters of a string literal after its opening quote. *)
Fixpoint parse_string (fuel : nat) (l : list ascii) (acc : list ascii)
  : option (string * list ascii) :=
  match fuel with
  | 0 => None
  | S fuel' =>
      match l with
      | [] => None
      | c :: r =>
          if code c =? 34 then
            Some (String.string_of_list_ascii (rev acc), r)
          else if code c =? 92 then
            match r with
            | e :: r' =>
                let simple (x : nat) :=
                  parse_string fuel' r' (Ascii.ascii_of_nat x :: acc) in
                let n := code e in
                if n =? 34 then simple 34
                else if n =? 92 then simple 92
                else if n =? 47 then simple 47
                else if n =? 98 then simple 8
                else if n =? 102 then simple 12
                else if n =? 110 then simple 10
                else if n =? 114 then simple 13
                else if n =? 116 then simple 9
                else if n =? 117 then
                  match r' with
                  | a :: b :: c' :: d :: r'' =>
                      match hex_digit a, hex_digit b,
                            hex_digit c', hex_digit d with
                      | Some 0, Some 0, Some x, Some y =>
                          parse_string fuel' r''
                            (Ascii.ascii_of_nat (16 * x + y) :: acc)
                      | _, _, _, _ => None
                      end
                  | _ => None
                  end
                else None
            | [] => None
            end
          else if code c <? 32 then None
          else parse_string fuel' r (c :: acc)
      end
  end.

Fixpoint parse_value (fuel : nat) (l : list ascii)
  : option (json * list ascii) :=
  match fuel with
  | 0 => None
  | S fuel' =>
      match skip_ws l with
      | [] => None
      | c :: r =>
          let n := code c in
          if n =? 110 then                         (* n *)
            r' ← expect (String.list_ascii_of_string "ull") r;
            Some (JNull, r')
          else if n =? 116 then                    (* t *)
            r' ← expect (String.list_ascii_of_string "rue") r;
            Some (JBool true, r')
          else if n =? 102 then                    (* f *)
            r' ← expect (String.list_ascii_of_string "alse") r;
            Some (JBool false, r')
          else if n =? 34 then                     (* string *)
            '(s, r') ← parse_string fuel' r []; Some (JString s, r')
          else if n =? 91 then                     (* [ *)
            match skip_ws r with
            | c' :: r' =>
                if code c' =? 93 then Some (JArray [], r')
                else '(xs, r'') ← parse_elements fuel' r [];
                     Some (JArray xs, r'')
            | [] => None
            end
          else if n =? 123 then                    (* { *)
            match skip_ws r with
            | c' :: r' =>
                if code c' =? 125 then Some (JObject [], r')
                else '(ms, r'') ← parse_members fuel' r [];
                     Some (JObject ms, r'')
            | [] => None
            end
          else
            '(q, r') ← parse_number (c :: r); Some (JNumber q, r')
      end
  end
with parse_elements (fuel : nat) (l : list ascii) (acc : list json)
  : option (list json * list ascii) :=
  match fuel with
  | 0 => None
  | S fuel' =>
      '(v, r) ← parse_value fuel' l;
      match skip_ws r with
      | c :: r' =>
          if code c =? 44 then parse_elements fuel' r' (v :: acc)
          else if code c =? 93 then Some (rev (v :: acc), r')
          else None
      | [] => None
      end
  end
with parse_members (fuel : nat) (l : list ascii)
       (acc : list (string * json))
  : option (list (string * json) * list ascii) :=
  match fuel with
  | 0 => None
  | S fuel' =>
      match skip_ws l with
      | q :: r =>
          if code q =? 34 then
            '(k, r1) ← parse_string fuel' r [];
            match skip_ws r1 with
            | c :: r2 =>
                if code c =? 58 then
                  '(v, r3) ← parse_value fuel' r2;
                  match skip_ws r3 with
                  | d :: r4 =>
                      if code d =? 44 then
                        parse_members fuel' r4 ((k, v) :: acc)
                      else if code d =? 125 then
                        Some (rev ((k, v) :: acc), r4)
                      else None
                  | [] => None
                  end
                else None
            | [] => None
            end
          else None
      | [] => None
      end
  end.

(** A whole text: one value, white space around it, nothing else. *)
Definition parse (s : string) : option json :=
  let l := String.list_ascii_of_string s in
  '(j, r) ← parse_value (2 * length l + 2) l;
  if skip_ws r is [] then Some j else None.

(** The decoded value built in the store; of two members with the same
    name the later one stays. *)
Fixpoint load_elems (f : json -> M val) (xs : list json) : M (list val) :=
  match xs with
  | [] => ret []
  | x :: xs' =>
      let* v := f x in
      let* vs := load_elems f xs' in
      ret (v :: vs)
  end.

Fixpoint load_members (f : json -> M val) (ms : list (string * json))
    (m : gmap string val) : M (gmap string val) :=
  match ms with
  | [] => ret m
  | (k, x) :: ms' =>
      let* v := f x in
      load_members f ms' (<[k := v]> m)
  end.

Fixpoint load (j : json) : M val :=
  match j with
  | JNull => ret VNull
  | JBool b => ret (VBool b)
  | JNumber q => ret (VNum q)
  | JString s => ret (VStr s)
  | JArray xs =>
      let* vs := load_elems load xs in
      alloc (OArr vs)
  | JObject ms =>
      let* m := load_members load ms ∅ in
      alloc (OObj m)
  end.

(** What [load] guarantees: from a closed store, a value in a closed
    extension of it. *)
Definition loads (m : M val) : Prop :=
  forall h, closed h ->
    exists v t, m h = (Ok v, h ++ t) /\ closed (h ++ t) /\ valid (h ++ t) v.

Definition JSON_parse (s : string) (h : heap) : option (val * heap) :=
  match parse s with
  | Some j =>
      match load j h with
      | (Ok v, h') => Some (v, h')
      | (Throw _, _) => None
      end
  | None => None
  end.

(** Concrete texts below are written with an apostrophe where the JSON text
    has a double quote. *)
Definition text (s : string) : string :=
  String.string_of_list_ascii
    ((fun c => if code c =? 39 then Ascii.ascii_of_nat 34 else c)
       <$> String.list_ascii_of_string s).

End Json.


(** ** The component: state, [drawGraph], effects *)

Module Component.
Import Js MathGraph.

(** The argument of [functionPlot], without the target element and the
    constant [tip]. *)
Record plot_options := {
  po_width : Q;
  po_height : Q;
  po_title : val;
  po_grid : bool;
  po_disableZoom : val;
  po_xDomain : val;
  po_xLabel : val;
  po_yDomain : val;
  po_yLabel : val;
  po_data : val
}.

Inductive engine_outcome (Chart : Type) :=
| Drawn (c : Chart)
| Raised (e : exn).
Arguments Drawn {Chart} c.
Arguments Raised {Chart} e.

Section Component.

(** The host's [JSON.parse] ([None]: it throws) and the plotting engine. *)
Context {Chart : Type}.
Variable JSON_parse : string -> heap -> option (val * heap).
Variable functionPlot : plot_options -> heap -> engine_outcome Chart.

Record component := {
  code : string;                     (* the prop *)
  dimensions : Q * Q;                (* state: width, height *)
  error : option string;             (* state *)
  legendItems : val;                 (* state *)
  chartInstance : option Chart;      (* ref *)
  mounted : bool;                    (* the refs are set: in the document *)
  surface : option Chart;            (* what rootEl contains *)
  scheduled : bool;                  (* a requested frame is pending *)
  store : heap;
  invocations : list plot_options    (* the calls of functionPlot so far *)
}.

Definition set_code (c : string) (s : component) : component :=
  {| code := c; dimensions := dimensions s; error := error s;
     legendItems := legendItems s; chartInstance := chartInstance s;
     mounted := mounted s; surface := surface s; scheduled := scheduled s;
     store := store s; invocations := invocations s |}.

Definition set_dimensions (d : Q * Q) (s : component) : component :=
  {| code := code s; dimensions := d; error := error s;
     legendItems := legendItems s; chartInstance := chartInstance s;
     mounted := mounted s; surface := surface s; scheduled := scheduled s;
     store := store s; invocations := invocations s |}.

Definition set_error (e : option string) (s : component) : component :=
  {| code := code s; dimensions := dimensions s; error := e;
     legendItems := legendItems s; chartInstance := chartInstance s;
     mounted := mounted s; surface := surface s; scheduled := scheduled s;
     store := store s; invocations := invocations s |}.

Definition set_legendItems (l : val) (s : component) : component :=
  {| code := code s; dimensions := dimensions s; error := error s;
     legendItems := l; chartInstance := chartInstance s;
     mounted := mounted s; surface := surface s; scheduled := scheduled s;
     store := store s; invocations := invocations s |}.

Definition set_chartInstance (c : option Chart) (s : component) : component :=
  {| code := code s; dimensions := dimensions s; error := error s;
     legendItems := legendItems s; chartInstance := c;
     mounted := mounted s; surface := surface s; scheduled := scheduled s;
     store := store s; invocations := invocations s |}.

Definition set_mounted (b : bool) (s : component) : component :=
  {| code := code s; dimensions := dimensions s; error := error s;
     legendItems := legendItems s; chartInstance := chartInstance s;
     mounted := b; surface := surface s; scheduled := scheduled s;
     store := store s; invocations := invocations s |}.

Definition set_surface (c : option Chart) (s : component) : component :=
  {| code := code s; dimensions := dimensions s; error := error s;
     legendItems := legendItems s; chartInstance := chartInstance s;
     mounted := mounted s; surface := c; scheduled := scheduled s;
     store := store s; invocations := invocations s |}.

Definition set_scheduled (b : bool) (s : component) : component :=
  {| code := code s; dimensions := dimensions s; error := error s;
     legendItems := legendItems s; chartInstance := chartInstance s;
     mounted := mounted s; surface := surface s; scheduled := b;
     store := store s; invocations := invocations s |}.

Definition set_store (h : heap) (s : component) : component :=
  {| code := code s; dimensions := dimensions s; error := error s;
     legendItems := legendItems s; chartInstance := chartInstance s;
     mounted := mounted s; surface := surface s; scheduled := scheduled s;
     store := h; invocations := invocations s |}.

Definition record_invocation (o : plot_options) (s : component) : component :=
  {| code := code s; dimensions := dimensions s; error := error s;
     legendItems := legendItems s; chartInstance := chartInstance s;
     mounted := mounted s; surface := surface s; scheduled := scheduled s;
     store := store s; invocations := invocations s ++ [o] |}.

(** A store computation run on the component's store. *)
Definition lift {A} (m : M A) : ST component A :=
  fun s => let '(r, h) := m (store s) in (r, set_store h s).

Definition modify (f : component -> component) : ST component unit :=
  fun s => (Ok tt, f s).

Definition read {A} (f : component -> A) : ST component A :=
  fun s => (Ok (f s), s).

(** [JSON.parse(code)] inside its own [try]: any failure is rethrown as
    [new Error("Failed to parse diagram")]. *)
Definition parse_code : ST component val :=
  fun s =>
    match JSON_parse (code s) (store s) with
    | Some (parsed, h) => (Ok parsed, set_store h s)
    | None => (Throw (ErrorObj "Failed to parse diagram"), s)
    end.

(** [d || [-10, 10]] *)
Definition domain_or_default (d : val) : M val :=
  if truthy d then ret d else alloc default_domain.

(** The call of the engine; the surface then holds the new plot. *)
Definition call_functionPlot (o : plot_options) : ST component Chart :=
  fun s =>
    let s := record_invocation o s in
    match functionPlot o (store s) with
    | Drawn c => (Ok c, set_surface (Some c) s)
    | Raised e => (Throw e, s)
    end.

(** The body of the outer [try] of [drawGraph]. *)
Definition draw_body : ST component unit :=
  let* parsed := parse_code in
  let* config := lift (normalize parsed) in
  let* root := read mounted in
  let* _ := if root then modify (set_surface None) else ret tt in
  let* processed := lift (processedData config) in
  let* _ := modify (set_legendItems processed) in
  let* xAxis := lift (get config "xAxis") in
  let* xd := lift (get_opt xAxis "domain") in
  let* xDomain := lift (domain_or_default xd) in
  let* yAxis := lift (get config "yAxis") in
  let* yd := lift (get_opt yAxis "domain") in
  let* yDomain := lift (domain_or_default yd) in
  let* root := read mounted in
  if negb root then ret tt
  else
    let* dims := read dimensions in
    let* title := lift (get config "title") in
    let* grid := lift (get config "grid") in
    let* disableZoom := lift (get config "disableZoom") in
    let* xl := lift (get_opt xAxis "label") in
    let* yl := lift (get_opt yAxis "label") in
    let* instance :=
      call_functionPlot
        {| po_width := fst dims;
           po_height := snd dims;
           po_title := title;
           po_grid := negb (strict_eq grid (VBool false));
           po_disableZoom := disableZoom;
           po_xDomain := xDomain;
           po_xLabel := or_else xl (VStr "x");
           po_yDomain := yDomain;
           po_yLabel := or_else yl (VStr "y");
           po_data := processed |} in
    modify (set_chartInstance (Some instance)).

(** [e instanceof Error ? e.message : "Invalid graph data."] *)
Definition message_of (e : exn) : string :=
  match e with
  | ErrorObj m => m
  | OtherValue => "Invalid graph data."
  end.

Definition drawGraph (s : component) : component :=
  match draw_body (set_error None s) with
  | (Ok _, s') => s'
  | (Throw e, s') => set_error (Some (message_of e)) s'
  end.

(** *** The two effects *)

(** [q > 0] *)
Definition gt0 (q : Q) : bool := negb (Qle_bool q 0).

(** [width > 0 && height > 0] *)
Definition positive_size (d : Q * Q) : bool := gt0 (fst d) && gt0 (snd d).

(** One callback of the [ResizeObserver]: the entries in order, each one
    with positive width and height queues [setDimensions]; the last queued
    update is the one the next render sees. *)
Definition observed (entries : list (Q * Q)) : option (Q * Q) :=
  fold_left (fun upd d => if positive_size d then Some d else upd)
    entries None.

(** The effect on [[code, dimensions]]: the cleanup of its previous run
    cancels the requested frame, then a frame is requested unless
    [rootEl.current] is unset or a dimension is [0]. *)
Definition draw_effect (s : component) : component :=
  let s := set_scheduled false s in
  if negb (mounted s)
     || Qeq_bool (fst (dimensions s)) 0
     || Qeq_bool (snd (dimensions s)) 0
  then s
  else set_scheduled true s.

Inductive event :=
| Resize (entries : list (Q * Q))   (* the observer's callback *)
| SetCode (c : string)              (* the parent renders with this prop *)
| Frame                             (* the next animation frame *)
| Unmount.

Definition step (s : component) (ev : event) : component :=
  if negb (mounted s) then s
  else
    match ev with
    | Resize entries =>
        match observed entries with
        | Some d => draw_effect (set_dimensions d s)
        | None => s
        end
    | SetCode c =>
        if String.eqb c (code s) then s
        else draw_effect (set_code c s)
    | Frame =>
        if scheduled s then drawGraph (set_scheduled false s) else s
    | Unmount => set_mounted false (set_scheduled false s)
    end.

Definition run (s : component) (evs : list event) : component :=
  fold_left step evs s.

(** An event that is not a report carrying a positive width and height. *)
Definition no_positive_report (ev : event) : Prop :=
  match ev with
  | Resize entries => observed entries = None
  | _ => True
  end.

(** The component after its first render and its effects: the state
    initialisers, [legendItems] an empty array, nothing scheduled since
    the dimensions are [0]. *)
Definition mount (c : string) : component :=
  draw_effect
    {| code := c; dimensions := (0%Q, 0%Q); error := None;
       legendItems := VRef 0; chartInstance := None;
       mounted := true; surface := None; scheduled := false;
       store := [OArr []]; invocations := [] |}.

(** [s'] has the props, the dimensions and the scheduling of [s]. *)
Definition same_inputs (s s' : component) : Prop :=
  code s' = code s /\ dimensions s' = dimensions s
  /\ mounted s' = mounted s /\ scheduled s' = scheduled s.

Definition framed {A} (m : ST component A) : Prop :=
  forall s r s', m s = (r, s') -> same_inputs s s'.

(** The dimensions held are the initial ones or those of a positive
    report. *)
Definition sized (s : component) : Prop :=
  dimensions s = (0%Q, 0%Q) \/ positive_size (dimensions s) = true.

(** What holds from the mount until the first positive report. *)
Definition waiting (s : component) : Prop :=
  dimensions s = (0%Q, 0%Q) /\ scheduled s = false
  /\ invocations s = [] /\ surface s = None.

(** *** What is shown *)

Definition legend_length (s : component) : nat :=
  match deref (store s) (legendItems s) with
  | Some (OArr xs) => length xs
  | _ => 0
  end.

(** [error] as a condition: [null] and the empty string are falsy. *)
Definition error_active (s : component) : bool :=
  match error s with
  | Some m => negb (String.eqb m "")
  | None => false
  end.

(** [legendItems.length > 0 && !error] *)
Definition legend_shown (s : component) : bool :=
  (0 <? legend_length s) && negb (error_active s).

End Component.

Arguments component : clear implicits.

End Component.

(** ** Running the component's pipeline on a text *)

Module Examples.
Import Js Json MathGraph.

(** Decode, normalise and process, as [drawGraph] does, from an empty
    store: the array [processedData] and the store it lives in. *)
Definition series_of_text (t : string) : option (val * heap) :=
  match JSON_parse (text t) [] with
  | Some (parsed, h) =>
      match (let* config := normalize parsed in processedData config) h with
      | (Ok out, h') => Some (out, h')
      | (Throw _, _) => None
      end
  | None => None
  end.

(** [arr[i].k] *)
Definition field (h : heap) (arr : val) (i : nat) (k : string) : val :=
  prop_of h (prop_of h arr (string_of_nat i)) k.

(** [arr[i].k] when that is an array: its elements. *)
Definition field_elems (h : heap) (arr : val) (i : nat) (k : string)
  : option (list val) :=
  match deref h (field h arr i k) with
  | Some (OArr xs) => Some xs
  | _ => None
  end.

(** The series [{"fnType":"implicit","fn":"x^2+y^2-4","range":[0,5]}] at
    location 1, its [range] at location 0. *)
Definition implicit_circle : heap :=
  [ OArr [VNum 0; VNum 5]
  ; OObj (<["range" := VRef 0]>
         (<["fn" := VStr "x^2+y^2-4"]>
         (<["fnType" := VStr "implicit"]> ∅))) ].

(** The series [{"fnType":"vector","vector":[3,4,5],"range":[5,0]}] at
    location 2, its [vector] at location 0 and its [range] at location 1. *)
Definition long_vector : heap :=
  [ OArr [VNum 3; VNum 4; VNum 5]
  ; OArr [VNum 5; VNum 0]
  ; OObj (<["range" := VRef 1]>
         (<["vector" := VRef 0]>
         (<["fnType" := VStr "vector"]> ∅))) ].

(** An engine that draws whatever it is given; its handle is a number. *)
Definition always_draws (o : Component.plot_options) (h : heap)
  : Component.engine_outcome nat :=
  Component.Drawn (length h).

(** The component with this decoder and engine, run from its mount. *)
Definition play (c : string) (evs : list Component.event)
  : Component.component nat :=
  Component.run JSON_parse always_draws (Component.mount (text c)) evs.

(** The decoded [{"data":[{"fn":"sin(x)"},{"fn":"cos(x)","color":"#000"}]}],
    at location 3. *)
Definition two_series : heap :=
  [ OObj (<["fn" := VStr "sin(x)"]> ∅)
  ; OObj (<["color" := VStr "#000"]> (<["fn" := VStr "cos(x)"]> ∅))
  ; OArr [VRef 0; VRef 1]
  ; OObj (<["data" := VRef 2]> ∅) ].

(** The decoded [{"data":[{"label":"","color":"","fn":""}]}], at
    location 2. *)
Definition blank_series : heap :=
  [ OObj (<["label" := VStr ""]>
         (<["color" := VStr ""]> (<["fn" := VStr ""]> ∅)))
  ; OArr [VRef 0]
  ; OObj (<["data" := VRef 1]> ∅) ].

(** The decoded [{"fn":"x^2"}], at location 0. *)
Definition legacy_square : heap := [OObj (<["fn" := VStr "x^2"]> ∅)].

End Examples.

(** ** What the further properties speak of *)

Module Coverage.
Import Js Json MathGraph Component.

(** The properties the returned object sets after the spread. *)
Definition overridden : list string :=
  ["fnType"; "graphType"; "color"; "label"; "vector"; "range"].

(** The values the type [FunctionItem] allows for [graphType]. *)
Definition graphTypes : list string := ["polyline"; "scatter"; "interval"].

(** The series [{"fn":"x","points":[[1,2]],"nSamples":50,"length":5}] at
    location 2, its [points] at location 1. *)
Definition own_length : heap :=
  [ OArr [VNum 1; VNum 2]
  ; OArr [VRef 0]
  ; OObj (<["length" := VNum 5]>
         (<["nSamples" := VNum 50]>
         (<["points" := VRef 1]>
         (<["fn" := VStr "x"]> ∅)))) ].

(** The decoded [{"data":[{"fn":"x"},null,{"fn":"y"}]}], at location 3. *)
Definition null_in_the_middle : heap :=
  [ OObj (<["fn" := VStr "x"]> ∅)
  ; OObj (<["fn" := VStr "y"]> ∅)
  ; OArr [VRef 0; VNull; VRef 1]
  ; OObj (<["data" := VRef 2]> ∅) ].

(** The decoded [{"fn":"x^2","title":"Parabola","grid":false}], at
    location 0. *)
Definition titled_legacy : heap :=
  [ OObj (<["grid" := VBool false]>
         (<["title" := VStr "Parabola"]>
         (<["fn" := VStr "x^2"]> ∅))) ].

(** An engine that throws a value that is not an [Error]. *)
Definition throws_a_string (o : plot_options) (h : heap)
  : engine_outcome nat := Raised OtherValue.

(** What a decoder returned, [undefined] in an empty store when it threw. *)
Definition decoded_of (r : option (val * heap)) : val * heap :=
  default (VUndef, []) r.

(** The value a store computation returned, [undefined] when it threw. *)
Definition value_of (r : res val * heap) : val :=
  match r.1 with
  | Ok a => a
  | Throw _ => VUndef
  end.


End Coverage.

(** * Properties *)

(** ** The store *)

Module StoreFacts.
Import Js.

Lemma lookup_alloc (h : heap) (o : obj) : (h ++ [o]) !! length h = Some o.
Proof. by apply list_lookup_middle. Qed.

Lemma lookup_fresh (h : heap) : h !! length h = None.
Proof. apply lookup_ge_None. lia. Qed.

Lemma lookup_kept (h t : heap) (l : nat) (o : obj) :
  h !! l = Some o -> (h ++ t) !! l = Some o.
Proof. intros H. by apply lookup_app_l_Some. Qed.

Lemma lookup_at (h t : heap) (k : nat) : (h ++ t) !! (length h + k) = t !! k.
Proof. rewrite lookup_app_r by lia. f_equal. lia. Qed.

Lemma lookup_at0 (h t : heap) : (h ++ t) !! length h = t !! 0.
Proof. rewrite lookup_app_r by lia. f_equal. lia. Qed.

(** A read through a location of [h] is not changed by later allocations. *)
Lemma prop_of_kept (h t : heap) (v : val) (k : string) :
  valid h v -> prop_of (h ++ t) v k = prop_of h v k.
Proof.
  destruct v as [| | | | |l]; simpl; try done.
  intros H. by rewrite lookup_app_l.
Qed.

Lemma isArray_kept (h t : heap) (v : val) :
  valid h v -> isArray (h ++ t) v = isArray h v.
Proof.
  destruct v as [| | | | |l]; unfold isArray; simpl; try done.
  intros H. by rewrite lookup_app_l.
Qed.

Lemma deref_kept (h t : heap) (v : val) :
  valid h v -> deref (h ++ t) v = deref h v.
Proof.
  destruct v as [| | | | |l]; simpl; try done.
  intros H. by rewrite lookup_app_l.
Qed.

Lemma get_ok (h : heap) (v : val) (k : string) :
  v <> VNull -> v <> VUndef -> get v k h = (Ok (prop_of h v k), h).
Proof. by destruct v. Qed.

(** Reading a property of the object just allocated. *)
Lemma prop_of_new (h : heap) (m : gmap string val) (k : string) :
  prop_of (h ++ [OObj m]) (VRef (length h)) k = default VUndef (m !! k).
Proof. simpl. by rewrite lookup_alloc. Qed.

Lemma index_0 (xs : list val) :
  default VUndef (index_props xs !! "0") = default VUndef (xs !! 0).
Proof. destruct xs as [|x xs]; [done|]. unfold index_props. simpl.
  by rewrite lookup_insert_eq. Qed.

Lemma index_1 (xs : list val) :
  default VUndef (index_props xs !! "1") = default VUndef (xs !! 1).
Proof.
  destruct xs as [|x [|y xs]]; [done| |]; unfold index_props; simpl.
  - by rewrite lookup_insert_ne.
  - rewrite lookup_insert_ne by done. by rewrite lookup_insert_eq.
Qed.

End StoreFacts.

(** ** The series processor, step by step *)

Module SeriesFacts.
Import Js MathGraph StoreFacts.

Lemma truthy_not_nullish (v : val) :
  truthy v = true -> v <> VNull /\ v <> VUndef.
Proof. by destruct v. Qed.

Lemma isArray_ref (h : heap) (v : val) :
  isArray h v = true -> exists l xs, v = VRef l /\ h !! l = Some (OArr xs).
Proof.
  unfold isArray. destruct v as [| | | | |l]; simpl; try done.
  destruct (h !! l) as [[xs|m]|] eqn:E; try done. eauto.
Qed.

Lemma isArray_deref (h : heap) (v : val) :
  isArray h v = true <-> exists xs, deref h v = Some (OArr xs).
Proof.
  unfold isArray. destruct (deref h v) as [[xs|m]|]; split; try done; eauto.
  - by intros [? ?].
  - by intros [? ?].
Qed.

(** [xs.length === 2] *)
Lemma length_is_2 (n : nat) :
  strict_eq (num_of_nat n) (num_of_nat 2) = true <-> n = 2.
Proof.
  unfold strict_eq, num_of_nat. rewrite Qeq_bool_iff.
  unfold Qeq, inject_Z. simpl. lia.
Qed.

Lemma vector_of_run (h : heap) (item : val) :
  item <> VNull -> item <> VUndef ->
  vector_of item h =
    let v := prop_of h item "vector" in
    if truthy v
    then (Ok (VRef (length h)),
          h ++ [OArr [prop_of h v "0"; prop_of h v "1"]])
    else (Ok VUndef, h).
Proof.
  intros N U. unfold vector_of, bind. rewrite get_ok by done. simpl.
  destruct (truthy (prop_of h item "vector")) eqn:T; [|done].
  apply truthy_not_nullish in T as [? ?].
  by rewrite !get_ok.
Qed.

Lemma range_of_run (h : heap) (fnType item : val) :
  item <> VNull -> item <> VUndef ->
  range_of fnType item h =
    let r := prop_of h item "range" in
    if negb (strict_eq fnType (VStr "implicit"))
       && isArray h r
       && strict_eq (prop_of h r "length") (num_of_nat 2)
    then (Ok (VRef (length h)),
          h ++ [OArr [prop_of h r "0"; prop_of h r "1"]])
    else (Ok VUndef, h).
Proof.
  intros N U. unfold range_of, bind. rewrite get_ok by done. simpl.
  destruct (negb _ && isArray h _ && _) eqn:C; [|done].
  apply andb_prop in C as [C _]. apply andb_prop in C as [_ C].
  apply isArray_ref in C as (l & xs & -> & _). done.
Qed.

(** The processed series: where it is allocated and what it holds. *)
Lemma process_item_run (h : heap) (item : val) (index : nat) :
  item <> VNull -> item <> VUndef ->
  exists vector range h2,
    let fnType := or_else (prop_of h item "fnType") (VStr "linear") in
    let graphType :=
      if truthy (prop_of h item "graphType")
      then prop_of h item "graphType"
      else if strict_eq fnType (VStr "implicit") then VStr "interval"
      else if strict_eq fnType (VStr "points") then VStr "scatter"
      else VStr "polyline" in
    let color :=
      or_else (prop_of h item "color")
        (palette_at (index mod length LEGEND_COLORS)) in
    let label :=
      or_else (prop_of h item "label")
        (or_else (prop_of h item "fn")
           (VStr ("Function " +:+ string_of_nat (index + 1)))) in
    (exists h1, vector_of item h = (Ok vector, h1)
                /\ range_of fnType item h1 = (Ok range, h2))
    /\ process_item item index h =
         (Ok (VRef (length h2)),
          h2 ++ [OObj (<["range" := range]>
                      (<["vector" := vector]>
                      (<["label" := label]>
                      (<["color" := color]>
                      (<["graphType" := graphType]>
                      (<["fnType" := fnType]> (own_props h item)))))))]).
Proof.
  intros N U.
  destruct (vector_of item h) as [rv h1] eqn:V.
  pose proof (vector_of_run h item N U) as V'. rewrite V in V'. simpl in V'.
  destruct rv as [vector|e];
    [|by destruct (truthy (prop_of h item "vector"))].
  set (fnType := or_else (prop_of h item "fnType") (VStr "linear")).
  destruct (range_of fnType item h1) as [rr h2] eqn:R.
  pose proof (range_of_run h1 fnType item N U) as R'. rewrite R in R'.
  simpl in R'.
  destruct rr as [range|e];
    [|by destruct (negb _ && isArray h1 _ && _)].
  exists vector, range, h2. simpl. split; [by eauto|].
  unfold process_item, bind, spread. rewrite !get_ok by done.
  fold fnType. rewrite V, R. done.
Qed.

Lemma process_item_nullish (h : heap) (item : val) (index : nat) :
  item = VNull \/ item = VUndef ->
  process_item item index h =
    (Throw (ErrorObj (type_error_message item "fnType")), h).
Proof. by intros [-> | ->]. Qed.

Lemma nullish_dec (v : val) :
  {v = VNull \/ v = VUndef}
  + {v <> VNull /\ v <> VUndef}.
Proof. destruct v; (by left; auto) || (by right). Qed.

(** The color and the label of a processed series, in any later store. *)
Lemma item_color_label
    (h : heap) (item : val) (index : nat) (o : val) (h' t : heap) :
  process_item item index h = (Ok o, h') ->
  prop_of (h' ++ t) o "color" =
    or_else (prop_of h item "color") (palette_at (index mod 7))
  /\ prop_of (h' ++ t) o "label" =
       or_else (prop_of h item "label")
         (or_else (prop_of h item "fn")
            (VStr ("Function " +:+ string_of_nat (index + 1)))).
Proof.
  intros E.
  destruct (nullish_dec item) as [Nl|[N U]];
    [by rewrite process_item_nullish in E|].
  destruct (process_item_run h item index N U) as (v & r & h2 & _ & E').
  rewrite E' in E. injection E as <- <-.
  split;
    (rewrite prop_of_kept by (simpl; rewrite length_app; simpl; lia));
    rewrite prop_of_new;
    repeat (rewrite lookup_insert_ne by done);
    by rewrite lookup_insert_eq.
Qed.

Lemma process_item_allocates (item : val) (index : nat) :
  allocates (process_item item index).
Proof.
  intros h r h' E.
  destruct (nullish_dec item) as [Nl|[N U]].
  - rewrite process_item_nullish in E by done. injection E as _ <-.
    exists []. by rewrite app_nil_r.
  - destruct (process_item_run h item index N U)
      as (v & rg & h2 & (h1 & V & R) & E').
    rewrite E' in E. injection E as _ <-.
    rewrite vector_of_run in V by done. simpl in V.
    rewrite range_of_run in R by done. simpl in R.
    destruct (truthy _) in V; injection V as _ <-;
      destruct (negb _ && _ && _) in R; injection R as _ <-;
      rewrite <- ?app_assoc; by eexists.
Qed.

(** [map]: the [k]-th result is what the callback made of the [k]-th
    element and its position, in the store as the elements before it left
    it; length and order are those of the input. *)
Lemma map_from_run (f : val -> nat -> M val) :
  (forall x i, allocates (f x i)) ->
  forall xs i h ys h',
    map_from f xs i h = (Ok ys, h') ->
    length ys = length xs
    /\ (exists t, h' = h ++ t)
    /\ forall k x, xs !! k = Some x ->
         exists y t1 hk t2,
           ys !! k = Some y
           /\ f x (i + k) (h ++ t1) = (Ok y, hk)
           /\ h' = hk ++ t2.
Proof.
  intros Hf. induction xs as [|x xs IH]; intros i h ys h' E; simpl in E.
  - injection E as <- <-. split; [done|]. split.
    + exists []. by rewrite app_nil_r.
    + intros k x. by rewrite lookup_nil.
  - unfold bind in E. destruct (f x i h) as [[y|e] h1] eqn:F; [|done].
    destruct (map_from f xs (S i) h1) as [[ys'|e] h2] eqn:G; [|done].
    injection E as <- <-.
    destruct (Hf _ _ _ _ _ F) as [t1 ->].
    destruct (IH _ _ _ _ G) as (L & [t2 ->] & K).
    split; [simpl; by rewrite L|]. split.
    + exists (t1 ++ t2). by rewrite app_assoc.
    + intros [|k] x'; simpl.
      * intros [= <-]. exists y, [], (h ++ t1), t2.
        by rewrite app_nil_r, Nat.add_0_r.
      * intros Hk. destruct (K k x' Hk) as (y' & u1 & hk & u2 & Y & F' & ->).
        exists y', (t1 ++ u1), hk, u2.
        by rewrite app_assoc, <- Nat.add_succ_comm.
Qed.

(** [processedData], element by element. *)
Lemma process_positions (h : heap) (config : val) (xs : list val)
    (out : val) (h' : heap) :
  config <> VNull -> config <> VUndef ->
  deref h (prop_of h config "data") = Some (OArr xs) ->
  processedData config h = (Ok out, h') ->
  exists ys,
    deref h' out = Some (OArr ys)
    /\ length ys = length xs
    /\ forall k x, xs !! k = Some x ->
         exists y t1 hk t2,
           ys !! k = Some y
           /\ process_item x k (h ++ t1) = (Ok y, hk)
           /\ h' = hk ++ t2.
Proof.
  intros N U D E. unfold processedData, bind in E. rewrite get_ok in E by done.
  unfold array_map in E. rewrite D in E. unfold bind in E.
  destruct (map_from process_item xs 0 h) as [[ys|e] h1] eqn:Mp; [|done].
  injection E as <- <-.
  destruct (map_from_run process_item process_item_allocates _ _ _ _ _ Mp)
    as (L & _ & K).
  exists ys. split; [simpl; apply lookup_alloc|]. split; [done|].
  intros k x Hk. destruct (K k x Hk) as (y & t1 & hk & t2 & Y & F & ->).
  exists y, t1, hk, (t2 ++ [OArr ys]). by rewrite app_assoc.
Qed.

Lemma map_from_total (xs : list val) :
  Forall (fun x => x <> VNull /\ x <> VUndef) xs ->
  forall i h, exists ys h', map_from process_item xs i h = (Ok ys, h').
Proof.
  induction 1 as [|x xs [Nx Ux] F IH]; intros i h; simpl;
    [by eexists _, _|].
  unfold bind.
  destruct (process_item_run h x i Nx Ux) as (v & rg & h2 & _ & E).
  rewrite E.
  match goal with |- context [map_from process_item xs (S i) ?hh] =>
    destruct (IH (S i) hh) as (ys & h1 & E')
  end.
  rewrite E'. by eexists _, _.
Qed.

(** [processedData] is made whenever no element is [null] or [undefined]. *)
Lemma process_total (h : heap) (config : val) (xs : list val) :
  config <> VNull -> config <> VUndef ->
  deref h (prop_of h config "data") = Some (OArr xs) ->
  Forall (fun x => x <> VNull /\ x <> VUndef) xs ->
  exists out h', processedData config h = (Ok out, h').
Proof.
  intros N U D F. unfold processedData, bind. rewrite get_ok by done.
  unfold array_map. rewrite D. unfold bind.
  destruct (map_from_total xs F 0 h) as (ys & h1 & ->). by eexists _, _.
Qed.

End SeriesFacts.

(** ** Closed stores

    The stores the component works on are closed: the decoder builds a
    closed store, and normalisation keeps it closed.  In a closed store
    every value read through a value of the store is a value of the store,
    which is what the theorems below ask of the series they read. *)

Module ClosedFacts.
Import Js Json MathGraph StoreFacts SeriesFacts.

Lemma valid_kept (h t : heap) (v : val) : valid h v -> valid (h ++ t) v.
Proof. destruct v; simpl; try done. rewrite length_app. lia. Qed.

Lemma values_obj (m : gmap string val) (v : val) :
  v ∈ values (OObj m) <-> exists k, m !! k = Some v.
Proof.
  simpl. rewrite list_elem_of_fmap. split.
  - intros [[k v'] [-> H]]. exists k. by apply elem_of_map_to_list in H.
  - intros [k H]. exists (k, v). split; [done|]. by apply elem_of_map_to_list.
Qed.

Lemma closed_alloc (h : heap) (o : obj) :
  closed h -> (forall v, v ∈ values o -> valid h v) -> closed (h ++ [o]).
Proof.
  intros C V l o' v L E. apply valid_kept.
  destruct (decide (l < length h)) as [Lt|Ge].
  - rewrite lookup_app_l in L by done. by eapply C.
  - apply lookup_lt_Some in L as L'. rewrite length_app in L'. simpl in L'.
    assert (l = length h) as -> by lia. rewrite lookup_alloc in L.
    injection L as <-. by apply V.
Qed.

Lemma json_induction (P : json -> Prop) :
  P JNull -> (forall b, P (JBool b)) -> (forall q, P (JNumber q)) ->
  (forall s, P (JString s)) ->
  (forall xs, Forall P xs -> P (JArray xs)) ->
  (forall ms, Forall (fun km => P km.2) ms -> P (JObject ms)) ->
  forall j, P j.
Proof.
  intros Hn Hb Hq Hs Ha Ho. fix IH 1.
  intros [ |b|q|s|xs|ms]; [exact Hn|apply Hb|apply Hq|apply Hs| | ].
  - apply Ha. induction xs as [|x xs IHxs]; constructor; [apply IH|done].
  - apply Ho. induction ms as [|[k x] ms IHms]; constructor; [apply IH|done].
Qed.

Lemma load_elems_closed (xs : list json) :
  Forall (fun x => loads (load x)) xs ->
  forall h, closed h ->
    exists vs t, load_elems load xs h = (Ok vs, h ++ t)
                 /\ closed (h ++ t) /\ Forall (valid (h ++ t)) vs.
Proof.
  induction 1 as [|x xs Hx _ IH]; intros h C; simpl.
  - exists [], []. rewrite app_nil_r. by repeat split.
  - unfold bind. destruct (Hx h C) as (v & t & -> & C1 & V1).
    destruct (IH _ C1) as (vs & t' & -> & C2 & V2).
    exists (v :: vs), (t ++ t'). rewrite app_assoc. repeat split; try done.
    constructor; [by apply valid_kept|done].
Qed.

Lemma load_members_closed (ms : list (string * json)) :
  Forall (fun km => loads (load km.2)) ms ->
  forall h m, closed h -> (forall k v, m !! k = Some v -> valid h v) ->
    exists m' t, load_members load ms m h = (Ok m', h ++ t)
                 /\ closed (h ++ t)
                 /\ (forall k v, m' !! k = Some v -> valid (h ++ t) v).
Proof.
  induction 1 as [|[k x] ms Hx _ IH]; intros h m C Vm; simpl.
  - exists m, []. rewrite app_nil_r. by repeat split.
  - unfold bind. simpl in Hx. destruct (Hx h C) as (v & t & -> & C1 & V1).
    destruct (IH (h ++ t) (<[k:=v]> m) C1) as (m' & t' & -> & C2 & V2).
    { intros k' v'. rewrite lookup_insert. case_decide.
      - by intros [= <-].
      - intros H'. apply valid_kept. by eapply Vm. }
    exists m', (t ++ t'). rewrite app_assoc. by repeat split.
Qed.

Lemma load_closed (j : json) : loads (load j).
Proof.
  induction j as [ |b|q|s|xs IH|ms IH] using json_induction; intros h C;
    try (eexists _, []; rewrite app_nil_r; by repeat split).
  - simpl. unfold bind.
    destruct (load_elems_closed xs IH h C) as (vs & t & -> & C1 & V).
    unfold alloc. exists (VRef (length (h ++ t))), (t ++ [OArr vs]).
    rewrite app_assoc. split; [done|]. split.
    + apply closed_alloc; [done|]. intros v Hv. simpl in Hv.
      rewrite Forall_forall in V. by apply V.
    + simpl. rewrite !length_app. simpl. lia.
  - simpl. unfold bind.
    destruct (load_members_closed ms IH h ∅ C) as (m & t & -> & C1 & V);
      [by intros k v; rewrite lookup_empty|].
    unfold alloc. exists (VRef (length (h ++ t))), (t ++ [OObj m]).
    rewrite app_assoc. split; [done|]. split.
    + apply closed_alloc; [done|]. intros v Hv.
      apply values_obj in Hv as [k Hk]. by eapply V.
    + simpl. rewrite !length_app. simpl. lia.
Qed.

(** The decoder yields a closed store and a value in it. *)
Lemma decoded_closed (t : string) (h0 h : heap) (v : val) :
  closed h0 -> JSON_parse t h0 = Some (v, h) ->
  closed h /\ valid h v /\ exists u, h = h0 ++ u.
Proof.
  intros C. unfold JSON_parse. destruct (parse t) as [j|]; [|done].
  destruct (load_closed j h0 C) as (v' & u & -> & C' & V').
  intros [= <- <-]. eauto.
Qed.

Lemma closed_nil : closed [].
Proof. intros l o v L. by rewrite lookup_nil in L. Qed.

Lemma index_props_elem (xs : list val) (k : string) (v : val) :
  index_props xs !! k = Some v -> v ∈ xs.
Proof.
  unfold index_props. intros H. apply elem_of_list_to_map_2 in H.
  apply elem_of_lookup_imap in H as (i & y & [= _ ->] & L).
  by eapply list_elem_of_lookup_2.
Qed.

(** In a closed store, what is read through a value of the store is a
    value of the store. *)
Lemma closed_prop_of (h : heap) (v : val) (k : string) :
  closed h -> valid h (prop_of h v k).
Proof.
  intros C. destruct v as [| | | |s|l]; simpl; try done.
  - destruct (String.eqb k "length"); [done|].
    destruct (index_props (chars s) !! k) as [c|] eqn:E; [|done].
    apply index_props_elem in E. unfold chars in E.
    apply list_elem_of_fmap in E as (a & -> & _). done.
  - destruct (h !! l) as [[xs|m]|] eqn:L; [| |done].
    + destruct (String.eqb k "length"); [done|].
      destruct (index_props xs !! k) as [x|] eqn:E; [|done].
      apply index_props_elem in E. by eapply (C l (OArr xs)).
    + destruct (m !! k) as [x|] eqn:E; [|done].
      apply (C l (OObj m)); [done|]. apply values_obj. eauto.
Qed.

Lemma closed_elements (h : heap) (arr : val) (xs : list val) :
  closed h -> deref h arr = Some (OArr xs) -> Forall (valid h) xs.
Proof.
  intros C D. destruct arr as [| | | | |l]; try done. simpl in D.
  apply Forall_forall. intros x Hx. by eapply (C l (OArr xs)).
Qed.

Lemma closed_app (h t : heap) :
  closed h ->
  (forall i o v, t !! i = Some o -> v ∈ values o -> valid (h ++ t) v) ->
  closed (h ++ t).
Proof.
  intros C V l o v L E.
  destruct (decide (l < length h)) as [Lt|Ge].
  - rewrite lookup_app_l in L by done. apply valid_kept. by eapply C.
  - rewrite lookup_app_r in L by lia. by eapply V.
Qed.

Ltac in_store :=
  first
    [ done
    | apply valid_kept; by apply closed_prop_of
    | simpl; rewrite length_app; simpl; lia
    | unfold or_else;
      match goal with |- context [truthy ?x] => destruct (truthy x) end;
      [apply valid_kept; by apply closed_prop_of|exact I] ].

Ltac member_of Hv :=
  first
    [ let k := fresh "k" in
      apply values_obj in Hv as [k Hv];
      repeat (rewrite lookup_insert in Hv; case_decide;
              [injection Hv as <-|]);
      [..|by rewrite lookup_empty in Hv]
    | simpl in Hv; repeat (apply elem_of_cons in Hv as [->|Hv]);
      [..|by apply elem_of_nil in Hv] ].

(** Normalisation keeps the store closed. *)
Lemma normalize_closed (h : heap) (parsed config : val) (h' : heap) :
  closed h -> valid h parsed ->
  normalize parsed h = (Ok config, h') ->
  closed h' /\ valid h' config.
Proof.
  intros C V. unfold normalize, bind.
  destruct (nullish_dec parsed) as [[-> | ->]|[N U]]; try done.
  rewrite get_ok by done.
  destruct (isArray h (prop_of h parsed "data")); [by intros [= <- <-]|].
  assert (forall t k, prop_of (h ++ t) parsed k = prop_of h parsed k) as Rd
    by (intros; by apply prop_of_kept).
  rewrite !get_ok by done. unfold alloc at 1 2.
  rewrite !get_ok by done.
  rewrite <- !app_assoc. simpl. rewrite Rd.
  destruct (truthy (prop_of h parsed "domain")) eqn:T; unfold ret, alloc;
    rewrite <- !app_assoc; simpl; rewrite !length_app; simpl;
    intros [= <- <-]; (split; [|in_store]);
    (apply closed_app; [done|]); intros i o v L Hv;
    repeat (destruct i as [|i];
            [injection L as <-; member_of Hv; try in_store|]);
    try done.
Qed.

End ClosedFacts.

(** ** The series processor: the claims *)

Module SeriesClaims.
Import Js MathGraph StoreFacts SeriesFacts Examples.

Ltac read_field :=
  rewrite prop_of_new;
  repeat (rewrite lookup_insert_ne by done);
  rewrite lookup_insert_eq; simpl.

Lemma palette_at_mod (i : nat) :
  exists c, LEGEND_COLORS !! (i mod 7) = Some c
            /\ palette_at (i mod 7) = VStr c
            /\ c <> "".
Proof.
  unfold palette_at.
  assert (i mod 7 < 7) as B by (apply Nat.mod_upper_bound; done).
  destruct (i mod 7) as [|[|[|[|[|[|[|n]]]]]]];
    simpl; try lia; eexists; (split; [reflexivity|split; [reflexivity|done]]).
Qed.

(** C2 (as the code has it): the processed [fnType] is the input's when
    that is truthy, and ["linear"] when it is missing or falsy; a value
    outside the five kinds is kept, so the processed kind is one of
    the five exactly when the input's is, or is missing or falsy. *)
Theorem kind_default (h : heap) (item : val) (index : nat) :
  item <> VNull -> item <> VUndef ->
  exists o h',
    process_item item index h = (Ok o, h')
    /\ prop_of h' o "fnType" =
         (if truthy (prop_of h item "fnType")
          then prop_of h item "fnType" else VStr "linear")
    /\ is_fnType (prop_of h' o "fnType") =
         is_fnType (prop_of h item "fnType")
         || negb (truthy (prop_of h item "fnType")).
Proof.
  intros N U.
  destruct (process_item_run h item index N U) as (v & r & h2 & _ & E).
  eexists _, _. split; [exact E|]. read_field. unfold or_else.
  destruct (truthy (prop_of h item "fnType")) eqn:T; split; try done.
  - by rewrite orb_false_r.
  - by rewrite orb_true_r.
Qed.

Lemma kind_default_witness :
  let h := [OObj (<["fnType" := VStr ""]> ∅)] in
  exists o h',
    process_item (VRef 0) 3 h = (Ok o, h')
    /\ prop_of h' o "fnType" = VStr "linear"
    /\ is_fnType (prop_of h' o "fnType") = true.
Proof.
  intros h.
  destruct (kind_default h (VRef 0) 3) as (o & h' & E & K & F); try done.
  exists o, h'. split; [exact E|]. split; [exact K|]. rewrite F. done.
Defined.

(** C2, counterexample: [{"data":[{"fn":"x","fnType":"foo"}]}] is processed
    to a series whose [fnType] is still ["foo"], not ["linear"] and not one
    of the five kinds. *)
Lemma unrecognized_kind_kept :
  match series_of_text "{'data':[{'fn':'x','fnType':'foo'}]}" with
  | Some (out, h) =>
      field h out 0 "fnType" = VStr "foo"
      /\ field h out 0 "fnType" <> VStr "linear"
      /\ is_fnType (field h out 0 "fnType") = false
  | None => False
  end.
Proof. vm_compute. done. Qed.

(** C5: a series whose [fnType] is ["implicit"] is processed to one whose
    [range] is [undefined], whatever [range] the input carries; its
    [graphType] is ["interval"] unless the input sets one, which is then
    kept. *)
Theorem implicit_range_absent (h : heap) (item : val) (index : nat) :
  prop_of h item "fnType" = VStr "implicit" ->
  exists o h',
    process_item item index h = (Ok o, h')
    /\ prop_of h' o "fnType" = VStr "implicit"
    /\ prop_of h' o "range" = VUndef
    /\ prop_of h' o "graphType" =
         (if truthy (prop_of h item "graphType")
          then prop_of h item "graphType" else VStr "interval").
Proof.
  intros K.
  assert (item <> VNull /\ item <> VUndef) as [N U]
    by (split; intros ->; done).
  destruct (process_item_run h item index N U)
    as (v & r & h2 & (h1 & _ & R) & E).
  rewrite K in R, E. simpl in R, E.
  rewrite range_of_run in R by done. simpl in R.
  injection R as <- <-.
  eexists _, _. split; [exact E|].
  split; [by read_field|]. split; by read_field.
Qed.

Lemma implicit_range_absent_witness :
  exists o h',
    process_item (VRef 1) 0 implicit_circle = (Ok o, h')
    /\ prop_of h' o "fnType" = VStr "implicit"
    /\ prop_of h' o "range" = VUndef
    /\ prop_of h' o "graphType" = VStr "interval".
Proof.
  destruct (implicit_range_absent implicit_circle (VRef 1) 0)
    as (o & h' & E & K & R & G); [reflexivity|].
  exists o, h'. split; [exact E|]. split; [exact K|]. split; [exact R|].
  rewrite G. reflexivity.
Defined.

Lemma data_not_nullish (h : heap) (config : val) (xs : list val) :
  deref h (prop_of h config "data") = Some (OArr xs) ->
  config <> VNull /\ config <> VUndef.
Proof. intros D. split; intros ->; done. Qed.

(** The processed series of a whole configuration, position by position:
    its color and label in terms of the input series. *)
Lemma processed_color_label (h : heap) (config : val) (xs : list val) :
  deref h (prop_of h config "data") = Some (OArr xs) ->
  Forall (fun x => x <> VNull /\ x <> VUndef) xs ->
  exists out h' ys,
    processedData config h = (Ok out, h')
    /\ deref h' out = Some (OArr ys)
    /\ length ys = length xs
    /\ forall k x,
         xs !! k = Some x ->
         exists y t,
           ys !! k = Some y
           /\ prop_of h' y "color" =
                or_else (prop_of (h ++ t) x "color") (palette_at (k mod 7))
           /\ prop_of h' y "label" =
                or_else (prop_of (h ++ t) x "label")
                  (or_else (prop_of (h ++ t) x "fn")
                     (VStr ("Function " +:+ string_of_nat (k + 1)))).
Proof.
  intros D F. destruct (data_not_nullish _ _ _ D) as [N U].
  destruct (process_total h config xs N U D F) as (out & h' & E).
  destruct (process_positions h config xs out h' N U D E) as (ys & O & L & K).
  exists out, h', ys. repeat split; try done.
  intros k x Hk. destruct (K k x Hk) as (y & t1 & hk & t2 & Y & P & ->).
  exists y, t1. split; [done|]. by eapply item_color_label.
Qed.

Lemma palette_colors (h : heap) (config : val) (xs : list val) :
  deref h (prop_of h config "data") = Some (OArr xs) ->
  Forall (fun x => x <> VNull /\ x <> VUndef) xs ->
  exists out h' ys,
    processedData config h = (Ok out, h')
    /\ deref h' out = Some (OArr ys)
    /\ forall k x,
         xs !! k = Some x -> valid h x ->
         truthy (prop_of h x "color") = false ->
         exists y, ys !! k = Some y
                   /\ prop_of h' y "color" = palette_at (k mod 7).
Proof.
  intros D F.
  destruct (processed_color_label h config xs D F)
    as (out & h' & ys & E & O & _ & K).
  exists out, h', ys. repeat split; try done.
  intros k x Hk V C. destruct (K k x Hk) as (y & t & Y & Co & _).
  exists y. split; [done|]. rewrite Co, prop_of_kept by done.
  unfold or_else. by rewrite C.
Qed.

(** C6: a series without a color of its own (the field missing or falsy)
    is given [LEGEND_COLORS[index % 7]], [index] being its position in
    [data] and the palette having seven entries; so in two runs, on
    whatever inputs, two such series at the same position are given the
    same color. *)
Theorem color_by_position
    (h1 h2 : heap) (config1 config2 : val) (xs1 xs2 : list val) :
  deref h1 (prop_of h1 config1 "data") = Some (OArr xs1) ->
  deref h2 (prop_of h2 config2 "data") = Some (OArr xs2) ->
  Forall (fun x => x <> VNull /\ x <> VUndef) xs1 ->
  Forall (fun x => x <> VNull /\ x <> VUndef) xs2 ->
  exists out1 h1' ys1 out2 h2' ys2,
    processedData config1 h1 = (Ok out1, h1')
    /\ deref h1' out1 = Some (OArr ys1)
    /\ processedData config2 h2 = (Ok out2, h2')
    /\ deref h2' out2 = Some (OArr ys2)
    /\ length LEGEND_COLORS = 7
    /\ forall k x1 x2,
         xs1 !! k = Some x1 -> valid h1 x1 ->
         truthy (prop_of h1 x1 "color") = false ->
         xs2 !! k = Some x2 -> valid h2 x2 ->
         truthy (prop_of h2 x2 "color") = false ->
         exists y1 y2 c,
           ys1 !! k = Some y1 /\ ys2 !! k = Some y2
           /\ LEGEND_COLORS !! (k mod 7) = Some c
           /\ prop_of h1' y1 "color" = VStr c
           /\ prop_of h2' y2 "color" = VStr c.
Proof.
  intros D1 D2 F1 F2.
  destruct (palette_colors h1 config1 xs1 D1 F1)
    as (out1 & h1' & ys1 & E1 & O1 & K1).
  destruct (palette_colors h2 config2 xs2 D2 F2)
    as (out2 & h2' & ys2 & E2 & O2 & K2).
  exists out1, h1', ys1, out2, h2', ys2. repeat split; try done.
  intros k x1 x2 L1 V1 C1 L2 V2 C2.
  destruct (K1 k x1 L1 V1 C1) as (y1 & Y1 & P1).
  destruct (K2 k x2 L2 V2 C2) as (y2 & Y2 & P2).
  destruct (palette_at_mod k) as (c & L & P & _).
  exists y1, y2, c. rewrite P1, P2. by repeat split.
Qed.

Lemma color_by_position_witness :
  exists out1 h1' ys1 out2 h2' ys2 y1 y2,
    processedData (VRef 3) two_series = (Ok out1, h1')
    /\ deref h1' out1 = Some (OArr ys1)
    /\ processedData (VRef 2) blank_series = (Ok out2, h2')
    /\ deref h2' out2 = Some (OArr ys2)
    /\ ys1 !! 0 = Some y1 /\ ys2 !! 0 = Some y2
    /\ prop_of h1' y1 "color" = VStr "#2563eb"
    /\ prop_of h2' y2 "color" = VStr "#2563eb".
Proof.
  destruct (color_by_position two_series blank_series (VRef 3) (VRef 2)
              [VRef 0; VRef 1] [VRef 0])
    as (out1 & h1' & ys1 & out2 & h2' & ys2 & E1 & O1 & E2 & O2 & _ & K);
    try done; try (by repeat constructor).
  destruct (K 0 (VRef 0) (VRef 0))
    as (y1 & y2 & c & Y1 & Y2 & C & P1 & P2);
    try done; try (simpl; lia).
  injection C as <-.
  by exists out1, h1', ys1, out2, h2', ys2, y1, y2.
Defined.

(** C9: when no series is [null], every processed series, at every
    position, has a [color] and a [label] that are truthy, hence not the
    empty string, also where the input carries empty strings; the label is
    the input's if truthy, else its [fn] if truthy, else ["Function "]
    followed by the position plus one. *)
Theorem color_and_label_nonempty (h : heap) (config : val) (xs : list val) :
  deref h (prop_of h config "data") = Some (OArr xs) ->
  Forall (fun x => x <> VNull /\ x <> VUndef) xs ->
  exists out h' ys,
    processedData config h = (Ok out, h')
    /\ deref h' out = Some (OArr ys)
    /\ length ys = length xs
    /\ forall k x,
         xs !! k = Some x ->
         exists y,
           ys !! k = Some y
           /\ truthy (prop_of h' y "color") = true
           /\ prop_of h' y "color" <> VStr ""
           /\ truthy (prop_of h' y "label") = true
           /\ prop_of h' y "label" <> VStr ""
           /\ (valid h x ->
               prop_of h' y "label" =
                 (if truthy (prop_of h x "label") then prop_of h x "label"
                  else if truthy (prop_of h x "fn") then prop_of h x "fn"
                  else VStr ("Function " +:+ string_of_nat (k + 1)))).
Proof.
  intros D F.
  destruct (processed_color_label h config xs D F)
    as (out & h' & ys & E & O & L & K).
  exists out, h', ys. repeat split; try done.
  intros k x Hk. destruct (K k x Hk) as (y & t & Y & Co & La).
  exists y. split; [done|].
  assert (forall v, truthy v = true -> v <> VStr "") as NE
    by (intros v T ->; done).
  assert (truthy (prop_of h' y "color") = true) as TC.
  { rewrite Co. unfold or_else.
    destruct (truthy (prop_of (h ++ t) x "color")) eqn:T; [done|].
    destruct (palette_at_mod k) as (c & _ & -> & Hc). simpl. by destruct c. }
  assert (truthy (prop_of h' y "label") = true) as TL.
  { rewrite La. unfold or_else.
    destruct (truthy (prop_of (h ++ t) x "label")) eqn:T; [done|].
    by destruct (truthy (prop_of (h ++ t) x "fn")) eqn:T'. }
  repeat split; try done; try (by apply NE).
  intros V. rewrite La, !prop_of_kept by done. done.
Qed.

Lemma color_and_label_nonempty_witness :
  exists out h' y,
    processedData (VRef 2) blank_series = (Ok out, h')
    /\ deref h' out = Some (OArr [y])
    /\ prop_of h' y "color" <> VStr ""
    /\ prop_of h' y "label" = VStr "Function 1".
Proof.
  destruct (color_and_label_nonempty blank_series (VRef 2) [VRef 0])
    as (out & h' & ys & E & O & L & K);
    try done; try (by repeat constructor).
  destruct (K 0 (VRef 0)) as (y & Y & _ & C & _ & _ & La); [done|].
  destruct ys as [|y' [|? ?]]; try done. injection Y as ->.
  exists out, h', y. repeat split; try done.
  rewrite La by (simpl; lia). done.
Defined.

Lemma truthy_prop_valid (h : heap) (v : val) (k : string) :
  truthy (prop_of h v k) = true -> valid h v.
Proof.
  destruct v as [| | | | |l]; simpl; try done.
  destruct (h !! l) eqn:E; [|done]. intros _. by eapply lookup_lt_Some.
Qed.

(** C3 (as the code has it): a truthy [vector] is copied into a new
    two-element array [[vector[0], vector[1]]], at a location the input
    store does not have; elements past the second are left out, and an
    element the input lacks reads as [undefined] (an input array of fewer
    than two elements still gives a two-element array).  A missing or falsy
    [vector] gives [undefined]. *)
Theorem vector_copied (h : heap) (item : val) (index : nat) :
  item <> VNull -> item <> VUndef ->
  exists o h',
    process_item item index h = (Ok o, h')
    /\ (truthy (prop_of h item "vector") = false ->
        prop_of h' o "vector" = VUndef)
    /\ (truthy (prop_of h item "vector") = true ->
        exists l,
          prop_of h' o "vector" = VRef l
          /\ h !! l = None
          /\ h' !! l = Some (OArr [prop_of h (prop_of h item "vector") "0";
                                   prop_of h (prop_of h item "vector") "1"]))
    /\ (forall xs,
          deref h (prop_of h item "vector") = Some (OArr xs) ->
          exists l,
            prop_of h' o "vector" = VRef l
            /\ VRef l <> prop_of h item "vector"
            /\ h' !! l = Some (OArr [default VUndef (xs !! 0);
                                     default VUndef (xs !! 1)])).
Proof.
  intros N U.
  destruct (process_item_run h item index N U)
    as (v & r & h2 & (h1 & V & R) & E).
  eexists _, _. split; [exact E|].
  rewrite vector_of_run in V by done. simpl in V.
  rewrite range_of_run in R by done. simpl in R.
  assert (exists t, h2 = h1 ++ t) as [t ->].
  { destruct (negb _ && isArray h1 _ && _).
    - injection R as _ <-. by eexists.
    - injection R as _ <-. exists []. by rewrite app_nil_r. }
  assert (truthy (prop_of h item "vector") = true ->
          v = VRef (length h)
          /\ h !! length h = None
          /\ ((h1 ++ t) ++ [OObj (<["range" := r]> (<["vector" := v]> ∅))])
               !! length h
             = Some (OArr [prop_of h (prop_of h item "vector") "0";
                          prop_of h (prop_of h item "vector") "1"])) as Copy.
  { intros T. rewrite T in V. injection V as <- <-.
    split; [done|]. split; [apply lookup_fresh|].
    apply lookup_kept, lookup_kept, lookup_alloc. }
  split; [|split].
  - intros F. rewrite F in V. injection V as <- _. by read_field.
  - intros T. destruct (Copy T) as (-> & Fr & L).
    exists (length h). split; [by read_field|]. split; [done|].
    rewrite T in V. injection V as <-.
    apply lookup_kept, lookup_kept, lookup_alloc.
  - intros xs D.
    assert (truthy (prop_of h item "vector") = true) as T
      by (by destruct (prop_of h item "vector")).
    destruct (Copy T) as (-> & Fr & _).
    exists (length h). split; [by read_field|].
    rewrite T in V. injection V as <-.
    destruct (prop_of h item "vector") as [| | | | |lv] eqn:PV; try done.
    simpl in D. split; [intros [= <-]; by rewrite Fr in D|].
    simpl. rewrite D. simpl. rewrite index_0, index_1.
    apply lookup_kept, lookup_kept, lookup_alloc.
Qed.

Lemma vector_copied_witness :
  exists o h' l,
    process_item (VRef 2) 0 long_vector = (Ok o, h')
    /\ prop_of h' o "vector" = VRef l
    /\ VRef l <> VRef 0
    /\ h' !! l = Some (OArr [VNum 3; VNum 4]).
Proof.
  destruct (vector_copied long_vector (VRef 2) 0)
    as (o & h' & E & _ & _ & A); try done.
  destruct (A [VNum 3; VNum 4; VNum 5]) as (l & P & D & L); [reflexivity|].
  by exists o, h', l.
Defined.

(** C3, counterexample: in [{"data":[{"fnType":"vector","vector":[1]}]}] the
    vector has one element; the processed series has a [vector] all the
    same, the two-element array [[1, undefined]]. *)
Lemma short_vector_not_absent :
  match series_of_text "{'data':[{'fnType':'vector','vector':[1]}]}" with
  | Some (out, h) =>
      field h out 0 "vector" <> VUndef
      /\ field_elems h out 0 "vector" = Some [VNum 1; VUndef]
  | None => False
  end.
Proof. vm_compute. done. Qed.

(** C1 (as the code has it): the processed [range] is present exactly when
    the processed [fnType] is not ["implicit"] and the input [range] is an
    array of exactly two elements; it is then a new array of those two
    elements, whatever they are and in whatever order.  Any other input
    [range] (not an array, or of another length) gives [undefined]. *)
Theorem range_copied (h : heap) (item : val) (index : nat) :
  item <> VNull -> item <> VUndef ->
  valid h (prop_of h item "range") ->
  exists o h',
    process_item item index h = (Ok o, h')
    /\ match deref h (prop_of h item "range") with
       | Some (OArr [a; b]) =>
           if strict_eq (prop_of h' o "fnType") (VStr "implicit")
           then prop_of h' o "range" = VUndef
           else exists l,
                  prop_of h' o "range" = VRef l
                  /\ h !! l = None
                  /\ h' !! l = Some (OArr [a; b])
       | _ => prop_of h' o "range" = VUndef
       end.
Proof.
  intros N U W.
  destruct (process_item_run h item index N U)
    as (v & r & h2 & (h1 & V & R) & E).
  eexists _, _. split; [exact E|].
  rewrite vector_of_run in V by done. simpl in V.
  rewrite range_of_run in R by done. simpl in R.
  assert (exists t, h1 = h ++ t
                    /\ prop_of h1 item "range" = prop_of h item "range")
    as (t & -> & Same).
  { destruct (truthy (prop_of h item "vector")) eqn:T.
    - injection V as _ <-. eexists. split; [done|].
      apply prop_of_kept. by eapply truthy_prop_valid.
    - injection V as _ <-. exists []. by rewrite app_nil_r. }
  rewrite Same in R. clear Same.
  set (rg := prop_of h item "range") in *.
  rewrite isArray_kept, prop_of_kept in R by done.
  rewrite !(prop_of_kept h t rg) in R by done.
  set (ft := or_else (prop_of h item "fnType") (VStr "linear")) in *.
  match goal with |- context [prop_of ?hh ?oo "fnType"] =>
    assert (prop_of hh oo "fnType" = ft) as -> by (by read_field);
    assert (prop_of hh oo "range" = r) as -> by (by read_field)
  end.
  destruct (deref h rg) as [[xs|m]|] eqn:D.
  - assert (isArray h rg = true) as IA by (apply isArray_deref; eauto).
    rewrite IA in R. clear IA.
    destruct rg as [| | | | |lr] eqn:RG; try done. simpl in D.
    assert (prop_of h (VRef lr) "length" = num_of_nat (length xs)) as PL
      by (simpl; by rewrite D).
    assert (prop_of h (VRef lr) "0" = default VUndef (xs !! 0)) as P0
      by (simpl; rewrite D; simpl; apply index_0).
    assert (prop_of h (VRef lr) "1" = default VUndef (xs !! 1)) as P1
      by (simpl; rewrite D; simpl; apply index_1).
    rewrite PL, P0, P1 in R. rewrite andb_true_r in R.
    destruct (strict_eq (num_of_nat (length xs)) (num_of_nat 2)) eqn:L2.
    + apply length_is_2 in L2.
      destruct xs as [|a [|b [|c xs]]]; try done. simpl in R.
      rewrite andb_true_r in R.
      destruct (strict_eq ft (VStr "implicit")); simpl in R.
      * by injection R as <- <-.
      * injection R as <- <-. exists (length (h ++ t)).
        split; [done|]. split.
        -- apply lookup_ge_None. rewrite length_app. lia.
        -- apply lookup_kept, lookup_alloc.
    + assert (length xs <> 2) as NL
        by (intros L; apply length_is_2 in L; congruence).
      rewrite andb_false_r in R. injection R as <- <-.
      by destruct xs as [|a [|b [|c xs]]].
  - assert (isArray h rg = false) as IA
      by (unfold isArray; by rewrite D).
    rewrite IA, andb_false_r in R. by injection R as <- <-.
  - assert (isArray h rg = false) as IA
      by (unfold isArray; by rewrite D).
    rewrite IA, andb_false_r in R. by injection R as <- <-.
Qed.

Lemma range_copied_witness :
  exists o h' l,
    process_item (VRef 2) 0 long_vector = (Ok o, h')
    /\ prop_of h' o "range" = VRef l
    /\ long_vector !! l = None
    /\ h' !! l = Some (OArr [VNum 5; VNum 0]).
Proof.
  destruct (range_copied long_vector (VRef 2) 0)
    as (o & h' & E & R); try done; [vm_compute; lia|].
  assert (strict_eq (prop_of h' o "fnType") (VStr "implicit") = false) as K.
  { vm_compute in E. by injection E as <- <-. }
  simpl in R. rewrite K in R. destruct R as (l & ? & ? & ?).
  by exists o, h', l.
Defined.

(** C1, counterexample: [{"data":[{"fn":"x","range":[5,0]}]}] is processed to
    a series whose [range] is [[5, 0]], the first bound above the second;
    and [{"data":[{"fn":"x","range":["a",null]}]}] to one whose [range]
    holds no number at all. *)
Lemma range_bounds_unchecked :
  match series_of_text "{'data':[{'fn':'x','range':[5,0]}]}",
        series_of_text "{'data':[{'fn':'x','range':['a',null]}]}" with
  | Some (out1, h1), Some (out2, h2) =>
      field_elems h1 out1 0 "range" = Some [VNum 5; VNum 0]
      /\ ~ (5 <= 0)%Q
      /\ field_elems h2 out2 0 "range" = Some [VStr "a"; VNull]
  | _, _ => False
  end.
Proof. vm_compute. split; [done|]. split; [|done]. by intros H. Qed.

End SeriesClaims.

(** ** The normaliser *)

Module NormalizerClaims.
Import Js MathGraph StoreFacts SeriesFacts Examples.

Ltac read_store :=
  simpl;
  repeat (first [ rewrite lookup_at | rewrite lookup_at0
                | rewrite lookup_insert_eq
                | rewrite lookup_insert_ne by done ]; simpl).

(** C7: a decoded value other than [null] whose [data] is not an array is
    normalised to a configuration with exactly one series, of [graphType]
    ["polyline"], colored with the first palette entry, labelled with the
    raw top-level [fn] (the expression itself defaulting to ["x"]); the x
    domain is the top-level [domain] if that is given (truthy), else a new
    [[-10, 10]]; the y domain is [[-10, 10]]; [grid] is [true]. *)
Theorem legacy_shape (h : heap) (parsed : val) :
  parsed <> VNull -> parsed <> VUndef -> valid h parsed ->
  isArray h (prop_of h parsed "data") = false ->
  exists config h' item c,
    normalize parsed h = (Ok config, h')
    /\ deref h' (prop_of h' config "data") = Some (OArr [item])
    /\ prop_of h' item "graphType" = VStr "polyline"
    /\ LEGEND_COLORS !! 0 = Some c
    /\ prop_of h' item "color" = VStr c
    /\ prop_of h' item "label" = prop_of h parsed "fn"
    /\ prop_of h' item "fn" =
         (if truthy (prop_of h parsed "fn")
          then prop_of h parsed "fn" else VStr "x")
    /\ (let xd := prop_of h' (prop_of h' config "xAxis") "domain" in
        if truthy (prop_of h parsed "domain")
        then xd = prop_of h parsed "domain"
        else deref h' xd = Some default_domain)
    /\ deref h' (prop_of h' (prop_of h' config "yAxis") "domain")
         = Some default_domain
    /\ prop_of h' config "grid" = VBool true.
Proof.
  intros N U W A.
  assert (forall t k, prop_of (h ++ t) parsed k = prop_of h parsed k) as Rd
    by (intros; by apply prop_of_kept).
  unfold normalize, bind. rewrite get_ok by done. rewrite A.
  rewrite !get_ok by done. unfold alloc at 1 2.
  rewrite !get_ok by done.
  rewrite <- !app_assoc. simpl. rewrite Rd.
  destruct (truthy (prop_of h parsed "domain")) eqn:T; unfold ret, alloc;
    rewrite <- !app_assoc; simpl; rewrite !length_app; simpl;
    eexists _, _, _, _; (split; [reflexivity|]); read_store;
    (split; [reflexivity|]); read_store; repeat split.
Qed.

Lemma legacy_shape_witness :
  exists config h' item xd,
    normalize (VRef 0) legacy_square = (Ok config, h')
    /\ deref h' (prop_of h' config "data") = Some (OArr [item])
    /\ prop_of h' item "graphType" = VStr "polyline"
    /\ prop_of h' item "color" = VStr "#2563eb"
    /\ prop_of h' item "label" = VStr "x^2"
    /\ prop_of h' item "fn" = VStr "x^2"
    /\ prop_of h' (prop_of h' config "xAxis") "domain" = xd
    /\ deref h' xd = Some (OArr [VNum (-10); VNum 10])
    /\ prop_of h' config "grid" = VBool true.
Proof.
  destruct (legacy_shape legacy_square (VRef 0))
    as (c & h' & i & col & E & D & G & C & Co & L & F & X & Y & Gr);
    try done; [vm_compute; lia|].
  injection C as <-.
  exists c, h', i, (prop_of h' (prop_of h' c "xAxis") "domain").
  repeat split; try done.
Defined.

(** The store of the witness is what the text [{"fn":"x^2"}] decodes to. *)
Lemma legacy_square_decoded :
  Json.JSON_parse (Json.text "{'fn':'x^2'}") [] = Some (VRef 0, legacy_square).
Proof. by vm_compute. Qed.

End NormalizerClaims.

(** ** The render lifecycle *)

Module LifecycleClaims.
Import Js MathGraph Component StoreFacts Examples.

Section Lifecycle.

Context {Chart : Type}.
Variable JSON_parse : string -> heap -> option (val * heap).
Variable functionPlot : plot_options -> heap -> engine_outcome Chart.

Abbreviation drawGraph := (drawGraph JSON_parse functionPlot).
Abbreviation step := (step JSON_parse functionPlot).
Abbreviation run := (run JSON_parse functionPlot).

Lemma normalize_null (h : heap) :
  normalize VNull h = (Throw (ErrorObj (type_error_message VNull "data")), h).
Proof. reflexivity. Qed.

(** C4 (as the code has it): when the text does not decode, [drawGraph]
    ends with the error ["Failed to parse diagram"] and changes nothing
    else: the engine is not invoked, and the surface, the store and
    [legendItems] are exactly what they were before the pass, so the
    legend state is not cleared; the legend is not shown while the error
    is set. *)
Theorem parse_failure (s : component Chart) :
  JSON_parse (code s) (store s) = None ->
  drawGraph s = set_error (Some "Failed to parse diagram") s
  /\ error (drawGraph s) = Some "Failed to parse diagram"
  /\ invocations (drawGraph s) = invocations s
  /\ surface (drawGraph s) = surface s
  /\ legendItems (drawGraph s) = legendItems s
  /\ legend_length (drawGraph s) = legend_length s
  /\ legend_shown (drawGraph s) = false.
Proof.
  intros F.
  assert (drawGraph s = set_error (Some "Failed to parse diagram") s) as E.
  { unfold Component.drawGraph, draw_body, bind, parse_code. simpl.
    by rewrite F. }
  rewrite E. repeat split.
  unfold legend_shown, error_active. simpl. apply andb_false_r.
Qed.

(** C10: on the text [null], decoded to the value [null], the read of
    [parsed.data] throws before any series is made; [drawGraph] ends with
    that TypeError's message as the error, the engine not invoked and the
    legend state and the surface left as they were. *)
Theorem null_input (s : component Chart) (h : heap) :
  code s = "null" ->
  JSON_parse "null" (store s) = Some (VNull, h) ->
  (exists e, normalize VNull h = (Throw e, h))
  /\ drawGraph s =
       set_error (Some (type_error_message VNull "data")) (set_store h s)
  /\ error_active (drawGraph s) = true
  /\ invocations (drawGraph s) = invocations s
  /\ legendItems (drawGraph s) = legendItems s
  /\ surface (drawGraph s) = surface s
  /\ chartInstance (drawGraph s) = chartInstance s.
Proof.
  intros C P.
  assert (drawGraph s =
            set_error (Some (type_error_message VNull "data"))
              (set_store h s)) as E.
  { unfold Component.drawGraph, draw_body, bind, parse_code. simpl.
    by rewrite C, P. }
  rewrite E. split; [by eexists|]. repeat split.
Qed.

(** *** The observer and the draw guard *)

Lemma gt0_spec (q : Q) : gt0 q = true <-> (0 < q)%Q.
Proof.
  unfold gt0. rewrite negb_true_iff, <- not_true_iff_false, Qle_bool_iff.
  split; [apply Qnot_le_lt|apply Qlt_not_le].
Qed.

Lemma positive_size_spec (d : Q * Q) :
  positive_size d = true <-> (0 < fst d)%Q /\ (0 < snd d)%Q.
Proof. unfold positive_size. by rewrite andb_true_iff, !gt0_spec. Qed.

Lemma positive_not_zero (d : Q * Q) :
  positive_size d = true ->
  Qeq_bool (fst d) 0 = false /\ Qeq_bool (snd d) 0 = false.
Proof.
  rewrite positive_size_spec. intros [A B].
  split; apply not_true_iff_false; rewrite Qeq_bool_iff; intros E;
    [rewrite E in A|rewrite E in B];
    by apply Qlt_irrefl in A || apply Qlt_irrefl in B.
Qed.

Lemma observed_from (entries : list (Q * Q)) (upd : option (Q * Q)) :
  fold_left (fun upd d => if positive_size d then Some d else upd)
    entries upd = None
  <-> upd = None /\ Forall (fun d => positive_size d = false) entries.
Proof.
  revert upd. induction entries as [|d entries IH]; intros upd; simpl.
  - split; [by intros ->|by intros [-> _]].
  - rewrite IH, Forall_cons. destruct (positive_size d); split;
      intros H; try done; destruct H as [? H]; try done; by destruct H.
Qed.

(** No update is queued exactly when no entry has a positive width and
    height. *)
Lemma observed_None (entries : list (Q * Q)) :
  observed entries = None
  <-> Forall (fun d => positive_size d = false) entries.
Proof. unfold observed. rewrite observed_from. by split; [intros [_ ?]|]. Qed.

Lemma observed_from_positive
    (entries : list (Q * Q)) (upd : option (Q * Q)) (d : Q * Q) :
  (forall d', upd = Some d' -> positive_size d' = true) ->
  fold_left (fun upd d => if positive_size d then Some d else upd)
    entries upd = Some d ->
  positive_size d = true.
Proof.
  revert upd. induction entries as [|e entries IH]; simpl; intros upd P E.
  - by apply P.
  - apply IH in E; [done|]. intros d' H.
    destruct (positive_size e) eqn:Pe; [by injection H as <-|by apply P].
Qed.

Lemma observed_positive (entries : list (Q * Q)) (d : Q * Q) :
  observed entries = Some d -> positive_size d = true.
Proof. apply observed_from_positive. done. Qed.

(** A report without a positive width and height changes nothing: no state
    update, so no render and no requested frame. *)
Lemma nonpositive_report_ignored
    (s : component Chart) (entries : list (Q * Q)) :
  observed entries = None -> step s (Resize entries) = s.
Proof. intros O. unfold Component.step. rewrite O. by destruct (mounted s). Qed.

(** A report with a positive width and height is taken over and requests
    a frame. *)
Lemma positive_report_schedules
    (s : component Chart) (entries : list (Q * Q)) (d : Q * Q) :
  mounted s = true -> observed entries = Some d ->
  dimensions (step s (Resize entries)) = d
  /\ scheduled (step s (Resize entries)) = true.
Proof.
  intros Mo O. unfold Component.step. rewrite Mo, O. simpl.
  destruct (positive_not_zero d (observed_positive _ _ O)) as [A B].
  unfold draw_effect. simpl. by rewrite Mo, A, B.
Qed.

Lemma waiting_step (s : component Chart) (ev : event) :
  waiting s -> no_positive_report ev -> waiting (step s ev).
Proof.
  intros (D & S & I & Su) N. unfold Component.step.
  destruct (mounted s) eqn:Mo; simpl; [|done].
  destruct ev as [entries|c| |]; simpl in *.
  - by rewrite N.
  - destruct (String.eqb c (code s)); [done|].
    unfold draw_effect. simpl. by rewrite Mo, D.
  - by rewrite S.
  - done.
Qed.

Lemma waiting_run (s : component Chart) (evs : list event) :
  waiting s -> Forall no_positive_report evs -> waiting (run s evs).
Proof.
  revert s. induction evs as [|ev evs IH]; intros s W F; simpl; [done|].
  apply Forall_cons in F as [F1 F2]. apply IH; [|done].
  by apply waiting_step.
Qed.

(** *** [drawGraph] leaves the props, the dimensions and the scheduling *)

Lemma framed_bind {A B}
    (m : ST (component Chart) A) (f : A -> ST (component Chart) B) :
  framed m -> (forall a, framed (f a)) -> framed (bind m f).
Proof.
  intros Fm Ff s r s'. unfold bind.
  destruct (m s) as [[a|e] s1] eqn:E; intros H.
  - destruct (Fm _ _ _ E) as (? & ? & ? & ?).
    destruct (Ff a _ _ _ H) as (? & ? & ? & ?).
    repeat split; congruence.
  - injection H as _ <-. by eapply Fm.
Qed.

Lemma framed_ret {A} (a : A) : framed (Chart := Chart) (ret a).
Proof. intros s r s' [= _ <-]. done. Qed.

Lemma framed_lift {A} (m : M A) : framed (Chart := Chart) (lift m).
Proof.
  intros s r s'. unfold lift. destruct (m (store s)) as [r' h].
  intros [= _ <-]. done.
Qed.

Lemma framed_read {A} (f : component Chart -> A) : framed (read f).
Proof. intros s r s' [= _ <-]. done. Qed.

Lemma framed_modify (f : component Chart -> component Chart) :
  (forall s, same_inputs s (f s)) -> framed (modify f).
Proof. intros Hf s r s' [= _ <-]. apply Hf. Qed.

Lemma framed_parse_code : framed (Chart := Chart) (parse_code JSON_parse).
Proof.
  intros s r s'. unfold parse_code.
  destruct (JSON_parse (code s) (store s)) as [[p h]|]; by intros [= _ <-].
Qed.

Lemma framed_call (o : plot_options) :
  framed (call_functionPlot functionPlot o).
Proof.
  intros s r s'. unfold call_functionPlot.
  destruct (functionPlot o _); by intros [= _ <-].
Qed.

Lemma framed_draw_body : framed (draw_body JSON_parse functionPlot).
Proof.
  unfold draw_body.
  repeat first
    [ apply framed_bind; [|intros ?]
    | apply framed_parse_code | apply framed_lift | apply framed_read
    | apply framed_call | apply framed_ret
    | apply framed_modify; done
    | match goal with |- framed (if ?b then _ else _) => destruct b end ].
Qed.

Lemma drawGraph_same_inputs (s : component Chart) :
  same_inputs s (drawGraph s).
Proof.
  unfold Component.drawGraph.
  destruct (draw_body _ _ _) as [[u|e] s'] eqn:E;
    apply framed_draw_body in E; destruct E as (? & ? & ? & ?); done.
Qed.

Lemma draw_effect_dimensions (s : component Chart) :
  dimensions (draw_effect s) = dimensions s.
Proof. unfold draw_effect. by destruct (negb _ || _ || _). Qed.

Lemma sized_step (s : component Chart) (ev : event) :
  sized s -> sized (step s ev).
Proof.
  intros Z. unfold Component.step. destruct (mounted s); simpl; [|done].
  destruct ev as [entries|c| |].
  - destruct (observed entries) as [d|] eqn:O; [|done].
    right. rewrite draw_effect_dimensions. simpl.
    by apply observed_positive in O.
  - destruct (String.eqb c (code s)); [done|].
    unfold sized. by rewrite draw_effect_dimensions.
  - destruct (scheduled s); [|done]. unfold sized in *.
    destruct (drawGraph_same_inputs (set_scheduled false s)) as (_ & E & _).
    by rewrite E.
  - done.
Qed.

(** In every state the component reaches, the dimensions held are [0, 0]
    or both positive: the guard of the draw effect, which compares with
    [0], lets a draw through only at a positive size. *)
Lemma sized_run (c : string) (evs : list event) : sized (run (mount c) evs).
Proof.
  assert (forall s, sized s -> sized (run s evs)) as G.
  { induction evs as [|ev evs IH]; intros s Z; simpl; [done|].
    by apply IH, sized_step. }
  apply G. by left.
Qed.

(** C8 (as the code has it): from the mount until the first report with a
    positive width and height, whatever else happens (other reports, new
    texts, frames), the dimensions held stay [0, 0], no frame is requested
    and the engine is never invoked; the first positive report is taken
    over and requests the draw.  In any state, a report that is not
    positive changes nothing (the dimensions of an earlier positive
    report stay). *)
Theorem no_draw_before_positive_report (c : string) (evs : list event) :
  Forall no_positive_report evs ->
  let s := run (mount c) evs in
  dimensions s = (0%Q, 0%Q)
  /\ scheduled s = false
  /\ invocations s = []
  /\ surface s = None
  /\ (forall entries d,
        mounted s = true -> observed entries = Some d ->
        dimensions (step s (Resize entries)) = d
        /\ scheduled (step s (Resize entries)) = true)
  /\ (forall t entries,
        observed entries = None -> step t (Resize entries) = t).
Proof.
  intros F s.
  assert (waiting s) as (D & S & I & Su) by (by apply waiting_run).
  repeat split; try done.
  - by eapply positive_report_schedules.
  - by eapply positive_report_schedules.
  - apply nonpositive_report_ignored.
Qed.

End Lifecycle.

Lemma parse_failure_witness :
  let s := play "not json" [Resize [(300, 200)%Q]] in
  drawGraph Json.JSON_parse always_draws s
    = set_error (Some "Failed to parse diagram") s
  /\ legend_length (drawGraph Json.JSON_parse always_draws s) = 0.
Proof.
  intros s.
  destruct (parse_failure Json.JSON_parse always_draws s)
    as (E & _ & _ & _ & _ & L & _); [by vm_compute|].
  split; [exact E|]. rewrite L. by vm_compute.
Defined.

(** C4, counterexample: [{"fn":"x"}] is drawn, then the text becomes
    [not json]; after the failed pass the error is set and [legendItems]
    still holds the one series of the first pass. *)
Lemma legend_kept_on_parse_failure :
  let s1 := play "{'fn':'x'}" [Resize [(300, 200)%Q]; Frame] in
  let s2 := play "{'fn':'x'}"
              [Resize [(300, 200)%Q]; Frame; SetCode "not json"; Frame] in
  Json.JSON_parse "not json" (store s1) = None
  /\ error s1 = None /\ legend_length s1 = 1
  /\ error s2 = Some "Failed to parse diagram"
  /\ legend_length s2 = 1
  /\ legend_length s2 <> 0.
Proof. vm_compute. repeat split; done. Qed.

(** The legend state a parse failure keeps need not come from a pass that
    succeeded: [setLegendItems] runs before the engine is called, so after
    a first pass whose engine call threw and a second text [not json], the
    state still holds the one series of the first pass. *)
Lemma legend_of_failed_pass_kept :
  let s :=
    run Json.JSON_parse Coverage.throws_a_string
      (mount (Json.text "{'fn':'x'}"))
      [Resize [(300, 200)%Q]; Frame; SetCode "not json"; Frame] in
  error s = Some "Failed to parse diagram"
  /\ chartInstance s = None
  /\ legend_length s = 1.
Proof. vm_compute. repeat split; done. Qed.

Lemma null_input_witness :
  let s := play "null" [Resize [(300, 200)%Q]] in
  error (drawGraph Json.JSON_parse always_draws s)
    = Some "Cannot read properties of null (reading 'data')"
  /\ invocations (drawGraph Json.JSON_parse always_draws s) = [].
Proof.
  intros s.
  destruct (null_input Json.JSON_parse always_draws s (store s))
    as (_ & E & _ & I & _); [by vm_compute|by vm_compute|].
  rewrite I, E. by vm_compute.
Defined.

Lemma no_draw_before_positive_report_witness :
  let s := play "{'fn':'x'}"
             [Resize [(0, 0)%Q]; Frame; SetCode "x"; Resize [(0, 120)%Q];
              Frame] in
  invocations s = [] /\ scheduled s = false
  /\ scheduled (step Json.JSON_parse always_draws s
                  (Resize [(300, 200)%Q])) = true.
Proof.
  intros s.
  destruct (no_draw_before_positive_report Json.JSON_parse always_draws
              (Json.text "{'fn':'x'}")
              [Resize [(0, 0)%Q]; Frame; SetCode "x"; Resize [(0, 120)%Q];
               Frame])
    as (_ & S & I & _ & P & _).
  { repeat constructor. }
  split; [exact I|]. split; [exact S|].
  by destruct (P [(300, 200)%Q] (300, 200)%Q).
Defined.

(** C8, counterexample: [{"fn":"x"}] is drawn at 300 by 200; then a report
    of 0 by 0 arrives (the container is hidden), and the text changes.  At
    the next frame the engine is invoked again, at 300 by 200, though the
    last size observed is 0 by 0 and no positive report has followed. *)
Lemma draw_after_zero_size_report :
  let s1 := play "{'fn':'x'}" [Resize [(300, 200)%Q]; Frame] in
  let s2 := play "{'fn':'x'}"
              [Resize [(300, 200)%Q]; Frame;
               Resize [(0, 0)%Q]; SetCode (Json.text "{'fn':'x^2'}"); Frame] in
  length (invocations s1) = 1
  /\ positive_size (0, 0)%Q = false
  /\ length (invocations s2) = 2
  /\ (po_width <$> invocations s2) = [300%Q; 300%Q]
  /\ error s2 = None.
Proof. vm_compute. repeat split; done. Qed.

End LifecycleClaims.

(** ** The scenarios of the specification, run from their texts *)

Module Scenarios.
Import Js Json MathGraph Component Examples.

(** The stores used above are what these texts decode to. *)
Lemma example_stores_decoded :
  JSON_parse (text "{'fnType':'implicit','fn':'x^2+y^2-4','range':[0,5]}") []
    = Some (VRef 1, implicit_circle)
  /\ JSON_parse (text "{'fnType':'vector','vector':[3,4,5],'range':[5,0]}") []
      = Some (VRef 2, long_vector)
  /\ JSON_parse
       (text "{'data':[{'fn':'sin(x)'},{'fn':'cos(x)','color':'#000'}]}") []
      = Some (VRef 3, two_series)
  /\ JSON_parse (text "{'data':[{'label':'','color':'','fn':''}]}") []
      = Some (VRef 2, blank_series).
Proof. by vm_compute. Qed.

(** [{"fn":"x^2"}] at 300 by 200: one series, expression and label
    ["x^2"], the first palette color; both domains [[-10, 10]], the grid
    on; one engine call, no error. *)
Lemma scenario_legacy :
  let s := play "{'fn':'x^2'}" [Resize [(300, 200)%Q]; Frame] in
  error s = None
  /\ legend_length s = 1
  /\ field (store s) (legendItems s) 0 "fn" = VStr "x^2"
  /\ field (store s) (legendItems s) 0 "label" = VStr "x^2"
  /\ field (store s) (legendItems s) 0 "color" = VStr "#2563eb"
  /\ field (store s) (legendItems s) 0 "graphType" = VStr "polyline"
  /\ match invocations s with
     | [o] =>
         deref (store s) (po_xDomain o) = Some (OArr [VNum (-10); VNum 10])
         /\ deref (store s) (po_yDomain o) = Some (OArr [VNum (-10); VNum 10])
         /\ po_grid o = true
         /\ po_data o = legendItems s
     | _ => False
     end.
Proof. vm_compute. repeat split; done. Qed.

(** Two series, the second with a color of its own. *)
Lemma scenario_two_series :
  let s := play "{'data':[{'fn':'sin(x)'},{'fn':'cos(x)','color':'#000'}]}"
             [Resize [(300, 200)%Q]; Frame] in
  error s = None
  /\ legend_length s = 2
  /\ field (store s) (legendItems s) 0 "color" = VStr "#2563eb"
  /\ field (store s) (legendItems s) 0 "label" = VStr "sin(x)"
  /\ field (store s) (legendItems s) 1 "color" = VStr "#000"
  /\ field (store s) (legendItems s) 1 "label" = VStr "cos(x)".
Proof. vm_compute. repeat split; done. Qed.

(** A text that does not decode, from the mount: the error is set, the
    legend state is still the initial empty array, the engine not called. *)
Lemma scenario_not_json :
  let s := play "not json" [Resize [(300, 200)%Q]; Frame] in
  error s = Some "Failed to parse diagram"
  /\ legend_length s = 0
  /\ invocations s = [].
Proof. vm_compute. repeat split; done. Qed.

(** An implicit series with a [range]. *)
Lemma scenario_implicit :
  let s := play
             "{'data':[{'fnType':'implicit','fn':'x^2+y^2-4','range':[0,5]}]}"
             [Resize [(300, 200)%Q]; Frame] in
  error s = None
  /\ field (store s) (legendItems s) 0 "graphType" = VStr "interval"
  /\ field (store s) (legendItems s) 0 "range" = VUndef.
Proof. vm_compute. repeat split; done. Qed.

(** A [null] among the series: the read of [item.fnType] throws, the pass
    ends with that error and without a call of the engine. *)
Lemma scenario_null_series :
  let s := play "{'data':[{'fn':'x'},null]}" [Resize [(300, 200)%Q]; Frame] in
  error s = Some "Cannot read properties of null (reading 'fnType')"
  /\ legend_length s = 0
  /\ invocations s = [].
Proof. vm_compute. repeat split; done. Qed.

End Scenarios.

(** * Further properties of the code *)

(** ** The series processor *)

Module SeriesMore.
Import Js MathGraph StoreFacts SeriesFacts ClosedFacts Examples Coverage.
Import SeriesClaims.

Lemma own_props_read (h : heap) (v : val) (k : string) :
  k <> "length" -> default VUndef (own_props h v !! k) = prop_of h v k.
Proof.
  intros NL. apply String.eqb_neq in NL.
  destruct v as [| | | |s|l]; simpl; try done.
  - by rewrite NL.
  - destruct (h !! l) as [[xs|m]|]; try done. by rewrite NL.
Qed.

(** Membership in a list of strings given in full, and its negation. *)
Ltac listed := apply (bool_decide_unpack _); by vm_compute.

Lemma valid_new (h : heap) (o : obj) : valid (h ++ [o]) (VRef (length h)).
Proof. simpl. rewrite length_app. simpl. lia. Qed.

(** Every property of a processed series, read in any later store. *)
Lemma item_props
    (h : heap) (item : val) (index : nat) (o : val) (h' t : heap) :
  process_item item index h = (Ok o, h') ->
  (item <> VNull /\ item <> VUndef)
  /\ (exists u, h' = h ++ u)
  /\ valid h' o
  /\ prop_of (h' ++ t) o "fnType" =
       or_else (prop_of h item "fnType") (VStr "linear")
  /\ prop_of (h' ++ t) o "graphType" =
       (if truthy (prop_of h item "graphType")
        then prop_of h item "graphType"
        else if strict_eq (or_else (prop_of h item "fnType") (VStr "linear"))
                  (VStr "implicit") then VStr "interval"
        else if strict_eq (or_else (prop_of h item "fnType") (VStr "linear"))
                  (VStr "points") then VStr "scatter"
        else VStr "polyline")
  /\ (truthy (prop_of h item "vector") = false ->
      prop_of (h' ++ t) o "vector" = VUndef)
  /\ (forall k, k ∉ overridden ->
        prop_of (h' ++ t) o k = default VUndef (own_props h item !! k)).
Proof.
  intros E.
  destruct (nullish_dec item) as [Nl|[N U]];
    [by rewrite process_item_nullish in E|].
  split; [done|]. split; [by eapply process_item_allocates|].
  destruct (process_item_run h item index N U)
    as (v & r & h2 & (h1 & V & R) & E').
  rewrite E' in E. injection E as <- <-.
  match goal with |- valid ?hh ?oo /\ _ =>
    assert (valid hh oo) as Vo by apply valid_new
  end.
  split; [done|].
  rewrite vector_of_run in V by done. simpl in V.
  repeat split.
  - rewrite prop_of_kept by done. rewrite prop_of_new.
    repeat (rewrite lookup_insert_ne by done). by rewrite lookup_insert_eq.
  - rewrite prop_of_kept by done. rewrite prop_of_new.
    repeat (rewrite lookup_insert_ne by done). by rewrite lookup_insert_eq.
  - intros F. rewrite F in V. injection V as <- _.
    rewrite prop_of_kept by done. rewrite prop_of_new.
    repeat (rewrite lookup_insert_ne by done). by rewrite lookup_insert_eq.
  - intros k Hk. rewrite prop_of_kept by done. rewrite prop_of_new.
    unfold overridden in Hk.
    repeat (rewrite lookup_insert_ne by (intros <-; apply Hk; set_solver)).
    done.
Qed.

(** A processed series sits at a location the input store does not have. *)
Lemma process_item_fresh
    (h : heap) (item : val) (index : nat) (o : val) (h' : heap) :
  process_item item index h = (Ok o, h') ->
  exists l, o = VRef l /\ h !! l = None.
Proof.
  intros E.
  destruct (nullish_dec item) as [Nl|[N U]];
    [by rewrite process_item_nullish in E|].
  destruct (process_item_run h item index N U)
    as (v & rg & h2 & (h1 & V & R) & E').
  rewrite E' in E. injection E as <- _.
  rewrite vector_of_run in V by done. simpl in V.
  rewrite range_of_run in R by done. simpl in R.
  eexists. split; [done|]. apply lookup_ge_None.
  destruct (truthy _) in V; injection V as _ <-;
    destruct (negb _ && _ && _) in R; injection R as _ <-;
    rewrite ?length_app; simpl; lia.
Qed.

(** X1: the [graphType] of a processed series is the input's when that is
    truthy; otherwise it follows the processed [fnType]: ["interval"] for
    ["implicit"], ["scatter"] for ["points"], ["polyline"] for anything
    else, a missing or an unknown kind included.  So a series that sets
    none always gets one of the three graph types. *)
Theorem graph_type_derived (h : heap) (item : val) (index : nat) :
  item <> VNull -> item <> VUndef ->
  exists o h',
    process_item item index h = (Ok o, h')
    /\ prop_of h' o "graphType" =
         (if truthy (prop_of h item "graphType")
          then prop_of h item "graphType"
          else if strict_eq (prop_of h' o "fnType") (VStr "implicit")
               then VStr "interval"
          else if strict_eq (prop_of h' o "fnType") (VStr "points")
               then VStr "scatter"
          else VStr "polyline")
    /\ (truthy (prop_of h item "graphType") = false ->
        exists g, prop_of h' o "graphType" = VStr g /\ g ∈ graphTypes).
Proof.
  intros N U.
  destruct (process_item_run h item index N U) as (v & r & h2 & _ & E).
  eexists _, _. split; [exact E|].
  destruct (item_props _ _ _ _ _ [] E) as (_ & _ & _ & K & G & _).
  rewrite app_nil_r in K, G. rewrite K, G. split; [done|].
  intros F. rewrite F. unfold graphTypes.
  destruct (strict_eq _ (VStr "implicit")); [eexists; split; [done|set_solver]|].
  destruct (strict_eq _ (VStr "points")); eexists; (split; [done|set_solver]).
Qed.

Lemma graph_type_derived_witness :
  exists o h',
    process_item (VRef 2) 0
      [OArr [VNum 1; VNum 2]; OArr [VRef 0];
       OObj (<["points" := VRef 1]> (<["fnType" := VStr "points"]> ∅))]
      = (Ok o, h')
    /\ prop_of h' o "graphType" = VStr "scatter".
Proof.
  destruct (graph_type_derived
              [OArr [VNum 1; VNum 2]; OArr [VRef 0];
               OObj (<["points" := VRef 1]> (<["fnType" := VStr "points"]> ∅))]
              (VRef 2) 0) as (o & h' & E & G & _); try done.
  exists o, h'. split; [exact E|]. rewrite G.
  vm_compute in E. injection E as <- <-. reflexivity.
Defined.

Lemma own_props_kept (h t : heap) (v : val) :
  valid h v -> own_props (h ++ t) v = own_props h v.
Proof.
  destruct v as [| | | | |l]; simpl; try done.
  intros H. by rewrite lookup_app_l.
Qed.

Lemma prop_of_obj (h : heap) (l : loc) (m : gmap string val) (k : string) :
  h !! l = Some (OObj m) -> prop_of h (VRef l) k = default VUndef (m !! k).
Proof. intros L. simpl. by rewrite L. Qed.

(** The own properties of a processed series, in any later store. *)
Lemma item_own_props
    (h : heap) (item : val) (index : nat) (o : val) (h' t : heap) :
  process_item item index h = (Ok o, h') ->
  exists l m,
    o = VRef l
    /\ h !! l = None
    /\ (h' ++ t) !! l = Some (OObj m)
    /\ (forall k, k ∉ overridden -> m !! k = own_props h item !! k)
    /\ (forall k, k ∈ overridden -> is_Some (m !! k)).
Proof.
  intros E. destruct (process_item_fresh _ _ _ _ _ E) as (l & -> & Fr).
  destruct (nullish_dec item) as [Nl|[N U]];
    [by rewrite process_item_nullish in E|].
  destruct (process_item_run h item index N U)
    as (v & r & h2 & _ & E').
  rewrite E' in E. injection E as <- <-.
  eexists _, _. split; [done|]. split; [done|].
  split; [rewrite lookup_app_l by (rewrite length_app; simpl; lia);
          apply lookup_alloc|].
  split.
  - intros k Hk. unfold overridden in Hk.
    by repeat (rewrite lookup_insert_ne by (intros <-; apply Hk; set_solver)).
  - intros k Hk. unfold overridden in Hk.
    repeat (apply elem_of_cons in Hk as [->|Hk]);
      [..|by apply elem_of_nil in Hk];
      repeat (rewrite lookup_insert_ne by done);
      rewrite lookup_insert_eq; by eexists.
Qed.

(** X2: the processed series is a new object.  Its own properties are
    the six the callback sets ([fnType], [graphType], [color], [label],
    [vector], [range]), each of them present even when its value is
    [undefined], and, under every other name, exactly the own enumerable
    properties of the input series, as the spread copies them, with the
    very values the input has, an own property named [length] included.
    So a nested array such as [points] is shared with the input, not
    copied. *)
Theorem other_fields_shared (h : heap) (item : val) (index : nat) :
  item <> VNull -> item <> VUndef ->
  exists l h' m,
    process_item item index h = (Ok (VRef l), h')
    /\ h !! l = None
    /\ h' !! l = Some (OObj m)
    /\ (forall k, k ∉ overridden -> m !! k = own_props h item !! k)
    /\ (forall k, k ∈ overridden -> is_Some (m !! k))
    /\ prop_of h' (VRef l) "points" = prop_of h item "points".
Proof.
  intros N U.
  destruct (process_item_run h item index N U) as (v & r & h2 & _ & E).
  destruct (item_own_props _ _ _ _ _ [] E)
    as (l & m & [= <-] & Fr & L & P & S).
  rewrite app_nil_r in L.
  eexists _, _, m. split; [exact E|].
  split; [done|]. split; [done|]. split; [done|]. split; [done|].
  rewrite (prop_of_obj _ _ _ _ L), (P "points") by listed.
  by apply own_props_read.
Qed.

Lemma other_fields_shared_witness :
  exists l h' m,
    process_item (VRef 2) 0 own_length = (Ok (VRef l), h')
    /\ l <> 2
    /\ h' !! l = Some (OObj m)
    /\ m !! "points" = Some (VRef 1)
    /\ m !! "nSamples" = Some (VNum 50)
    /\ m !! "length" = Some (VNum 5)
    /\ m !! "closed" = None
    /\ m !! "vector" = Some VUndef.
Proof.
  destruct (other_fields_shared own_length (VRef 2) 0)
    as (l & h' & m & E & Fr & L & P & S & _); try done.
  exists l, h', m. split; [exact E|].
  split; [intros ->; done|]. split; [exact L|].
  repeat split; try (rewrite P; [done|listed]).
  vm_compute in E. injection E as <- <-. vm_compute in L.
  injection L as <-. reflexivity.
Defined.

(** X3: [processedData] has as many series as [data], in the same order:
    the series at each position is a new object whose own properties,
    apart from the six the callback sets, are exactly the own enumerable
    properties of the input series at that position, with the same
    values. *)
Theorem series_order_kept (h : heap) (config : val) (xs : list val) :
  deref h (prop_of h config "data") = Some (OArr xs) ->
  Forall (fun x => x <> VNull /\ x <> VUndef) xs ->
  exists out h' ys,
    processedData config h = (Ok out, h')
    /\ deref h' out = Some (OArr ys)
    /\ length ys = length xs
    /\ forall k x,
         xs !! k = Some x -> valid h x ->
         exists l m,
           ys !! k = Some (VRef l)
           /\ h !! l = None
           /\ h' !! l = Some (OObj m)
           /\ forall key, key ∉ overridden ->
                m !! key = own_props h x !! key.
Proof.
  intros D F. destruct (data_not_nullish _ _ _ D) as [N U].
  destruct (process_total h config xs N U D F) as (out & h' & E).
  destruct (process_positions h config xs out h' N U D E) as (ys & O & L & K).
  exists out, h', ys. repeat split; try done.
  intros k x Hk V. destruct (K k x Hk) as (y & t1 & hk & t2 & Y & P & ->).
  destruct (item_own_props _ _ _ _ _ t2 P) as (l & m & -> & Fr & Lm & Q & _).
  exists l, m. split; [done|].
  split.
  { apply lookup_ge_None. apply lookup_ge_None in Fr.
    rewrite length_app in Fr. lia. }
  split; [done|].
  intros key Hkey. by rewrite (Q key Hkey), own_props_kept.
Qed.

Lemma series_order_kept_witness :
  exists out h' l0 l1 m0 m1,
    processedData (VRef 3) two_series = (Ok out, h')
    /\ deref h' out = Some (OArr [VRef l0; VRef l1])
    /\ h' !! l0 = Some (OObj m0) /\ m0 !! "fn" = Some (VStr "sin(x)")
    /\ h' !! l1 = Some (OObj m1) /\ m1 !! "fn" = Some (VStr "cos(x)").
Proof.
  destruct (series_order_kept two_series (VRef 3) [VRef 0; VRef 1])
    as (out & h' & ys & E & O & L & K);
    try done; try (by repeat constructor).
  destruct (K 0 (VRef 0)) as (l0 & m0 & Y0 & _ & L0 & P0);
    try done; [simpl; lia|].
  destruct (K 1 (VRef 1)) as (l1 & m1 & Y1 & _ & L1 & P1);
    try done; [simpl; lia|].
  destruct ys as [|a [|b [|c ys]]]; try done.
  injection Y0 as ->. injection Y1 as ->.
  exists out, h', l0, l1, m0, m1. split; [exact E|]. split; [exact O|].
  split; [exact L0|]. split; [rewrite P0; [done|listed]|].
  split; [exact L1|]. rewrite P1; [done|listed].
Defined.

Lemma map_from_throws (pre post : list val) (x : val) (i : nat) (h : heap) :
  Forall (fun x => x <> VNull /\ x <> VUndef) pre ->
  x = VNull \/ x = VUndef ->
  exists t,
    map_from process_item (pre ++ x :: post) i h =
      (Throw (ErrorObj (type_error_message x "fnType")), h ++ t).
Proof.
  intros F Nl. revert i h.
  induction F as [|p pre [Np Up] F IH]; intros i h; simpl; unfold bind.
  - rewrite process_item_nullish by done. exists []. by rewrite app_nil_r.
  - destruct (process_item_run h p i Np Up) as (v & r & h2 & _ & E).
    rewrite E.
    destruct (process_item_allocates _ _ _ _ _ E) as [u ->].
    destruct (IH (S i) (h ++ u)) as [t ->].
    exists (u ++ t). by rewrite app_assoc.
Qed.



Lemma palette_NoDup : NoDup LEGEND_COLORS.
Proof. apply (bool_decide_unpack _). by vm_compute. Qed.

(** X5: the palette wraps around: two series without a color of their own
    get the same color exactly when their positions are equal modulo 7
    (positions 0 to 6 get seven different colors, position 7 the color of
    position 0). *)
Theorem palette_wraps
    (h1 h2 : heap) (item1 item2 : val) (i j : nat) :
  item1 <> VNull -> item1 <> VUndef ->
  item2 <> VNull -> item2 <> VUndef ->
  truthy (prop_of h1 item1 "color") = false ->
  truthy (prop_of h2 item2 "color") = false ->
  exists o1 h1' o2 h2',
    process_item item1 i h1 = (Ok o1, h1')
    /\ process_item item2 j h2 = (Ok o2, h2')
    /\ (prop_of h1' o1 "color" = prop_of h2' o2 "color"
        <-> i mod 7 = j mod 7).
Proof.
  intros N1 U1 N2 U2 C1 C2.
  destruct (process_item_run h1 item1 i N1 U1) as (v1 & r1 & k1 & _ & E1).
  destruct (process_item_run h2 item2 j N2 U2) as (v2 & r2 & k2 & _ & E2).
  eexists _, _, _, _. split; [exact E1|]. split; [exact E2|].
  destruct (item_color_label _ _ _ _ _ [] E1) as [Q1 _].
  destruct (item_color_label _ _ _ _ _ [] E2) as [Q2 _].
  rewrite app_nil_r in Q1, Q2. rewrite Q1, Q2.
  unfold or_else. rewrite C1, C2.
  destruct (palette_at_mod i) as (c & Li & -> & _).
  destruct (palette_at_mod j) as (d & Lj & -> & _).
  split.
  - intros [= <-]. by eapply NoDup_lookup; [apply palette_NoDup|..].
  - intros Eq. rewrite Eq in Li. congruence.
Qed.

Lemma palette_wraps_witness :
  exists o1 h1' o2 h2',
    process_item (VRef 0) 2 legacy_square = (Ok o1, h1')
    /\ process_item (VRef 0) 9 legacy_square = (Ok o2, h2')
    /\ prop_of h1' o1 "color" = prop_of h2' o2 "color".
Proof.
  destruct (palette_wraps legacy_square legacy_square (VRef 0) (VRef 0) 2 9)
    as (o1 & h1' & o2 & h2' & E1 & E2 & W); try done.
  exists o1, h1', o2, h2'. split; [exact E1|]. split; [exact E2|].
  by apply W.
Defined.

End SeriesMore.

(** ** Closed stores, continued: the series processor *)

Module ClosedMore.
Import Js MathGraph StoreFacts SeriesFacts ClosedFacts SeriesMore.

Lemma own_props_valid (h : heap) (v x : val) (k : string) :
  closed h -> own_props h v !! k = Some x -> valid h x.
Proof.
  intros C. destruct v as [| | | |s|l]; simpl; try (by rewrite lookup_empty).
  - intros E. apply index_props_elem in E. unfold chars in E.
    apply list_elem_of_fmap in E as (a & -> & _). done.
  - destruct (h !! l) as [[xs|m]|] eqn:L; [| |by rewrite lookup_empty].
    + intros E. apply index_props_elem in E. by eapply (C l (OArr xs)).
    + intros E. apply (C l (OObj m)); [done|]. apply values_obj. eauto.
Qed.

Lemma closed_pair (h : heap) (a b : val) :
  closed h -> valid h a -> valid h b -> closed (h ++ [OArr [a; b]]).
Proof.
  intros C Va Vb. apply closed_alloc; [done|]. intros v Hv. simpl in Hv.
  apply elem_of_cons in Hv as [->|Hv]; [done|].
  apply elem_of_cons in Hv as [->|Hv]; [done|]. by apply elem_of_nil in Hv.
Qed.

Lemma vector_of_closed (h : heap) (item v : val) (h1 : heap) :
  closed h -> vector_of item h = (Ok v, h1) ->
  closed h1 /\ valid h1 v /\ exists u, h1 = h ++ u.
Proof.
  intros C E.
  destruct (nullish_dec item) as [[-> | ->]|[N U]]; try done.
  rewrite vector_of_run in E by done. simpl in E.
  destruct (truthy _); injection E as <- <-.
  - split; [apply closed_pair; try done; by apply closed_prop_of|].
    split; [apply valid_new|by eexists].
  - split; [done|]. split; [done|]. exists []. by rewrite app_nil_r.
Qed.

Lemma range_of_closed (h : heap) (fnType item r : val) (h1 : heap) :
  closed h -> range_of fnType item h = (Ok r, h1) ->
  closed h1 /\ valid h1 r /\ exists u, h1 = h ++ u.
Proof.
  intros C E.
  destruct (nullish_dec item) as [[-> | ->]|[N U]]; try done.
  rewrite range_of_run in E by done. simpl in E.
  destruct (negb _ && _ && _); injection E as <- <-.
  - split; [apply closed_pair; try done; by apply closed_prop_of|].
    split; [apply valid_new|by eexists].
  - split; [done|]. split; [done|]. exists []. by rewrite app_nil_r.
Qed.

Lemma valid_or_else (h : heap) (a b : val) :
  valid h a -> valid h b -> valid h (or_else a b).
Proof. unfold or_else. by destruct (truthy a). Qed.

(** The series processor keeps the store closed. *)
Lemma process_item_closed
    (h : heap) (item : val) (index : nat) (o : val) (h' : heap) :
  closed h -> process_item item index h = (Ok o, h') ->
  closed h' /\ valid h' o /\ exists u, h' = h ++ u.
Proof.
  intros C E.
  destruct (item_props _ _ _ _ _ [] E) as ([N U] & Ext & Vo & _).
  split; [|done].
  destruct (process_item_run h item index N U)
    as (v & r & h2 & (h1 & V & R) & E').
  rewrite E' in E. injection E as _ <-.
  destruct (vector_of_closed _ _ _ _ C V) as (C1 & V1 & [u1 ->]).
  destruct (range_of_closed _ _ _ _ _ C1 R) as (C2 & V2 & [u2 ->]).
  apply closed_alloc; [done|]. intros x Hx.
  assert (forall k, valid ((h ++ u1) ++ u2) (prop_of h item k)) as Vp.
  { intros k. rewrite <- app_assoc. apply valid_kept.
    by apply closed_prop_of. }
  apply values_obj in Hx as [k Hx].
  repeat (rewrite lookup_insert in Hx; case_decide;
          [injection Hx as <-|]).
  - done.
  - by apply valid_kept.
  - apply valid_or_else; [done|]. by apply valid_or_else.
  - apply valid_or_else; [done|]. unfold palette_at.
    by destruct (LEGEND_COLORS !! _).
  - destruct (truthy _); [done|].
    destruct (strict_eq _ _); [done|]. by destruct (strict_eq _ _).
  - by apply valid_or_else.
  - rewrite <- app_assoc. apply valid_kept. by eapply own_props_valid.
Qed.

Lemma map_from_closed (xs : list val) :
  forall i h ys h',
    closed h -> map_from process_item xs i h = (Ok ys, h') ->
    closed h' /\ Forall (valid h') ys.
Proof.
  induction xs as [|x xs IH]; intros i h ys h' C E; simpl in E.
  - by injection E as <- <-.
  - unfold bind in E.
    destruct (process_item x i h) as [[y|e] h1] eqn:P; [|done].
    destruct (map_from process_item xs (S i) h1) as [[zs|e] h2] eqn:Mp;
      [|done].
    injection E as <- <-.
    destruct (process_item_closed _ _ _ _ _ C P) as (C1 & Vy & _).
    destruct (IH _ _ _ _ C1 Mp) as (C2 & Vz).
    split; [done|]. constructor; [|done].
    destruct (map_from_run process_item process_item_allocates _ _ _ _ _ Mp)
      as (_ & [t ->] & _).
    by apply valid_kept.
Qed.

(** [processedData] keeps the store closed, whatever it adds. *)
Lemma processedData_closed (h : heap) (config out : val) (h' : heap) :
  closed h -> processedData config h = (Ok out, h') ->
  closed h' /\ valid h' out /\ exists u, h' = h ++ u.
Proof.
  intros C E. unfold processedData, bind in E.
  destruct (nullish_dec config) as [[-> | ->]|[N U]]; try done.
  rewrite get_ok in E by done. unfold array_map in E.
  destruct (deref h (prop_of h config "data")) as [[xs|m]|] eqn:D;
    try (by destruct (prop_of h config "data")).
  unfold bind in E.
  destruct (map_from process_item xs 0 h) as [[ys|e] h1] eqn:Mp; [|done].
  injection E as <- <-.
  destruct (map_from_closed _ _ _ _ _ C Mp) as (C1 & Vy).
  destruct (map_from_run process_item process_item_allocates _ _ _ _ _ Mp)
    as (_ & [t ->] & _).
  split; [|split; [apply valid_new|rewrite <- app_assoc; by eexists]].
  apply closed_alloc; [done|]. intros v Hv. simpl in Hv.
  rewrite Forall_forall in Vy. by apply Vy.
Qed.

End ClosedMore.

(** ** The legacy shorthand, through normalisation and processing *)

Module LegacyMore.
Import Js MathGraph StoreFacts SeriesFacts ClosedFacts Examples Coverage.
Import SeriesMore.

Ltac read_config :=
  simpl;
  repeat (first [ rewrite lookup_at | rewrite lookup_at0
                | rewrite lookup_insert_eq
                | rewrite lookup_insert_ne by done
                | rewrite lookup_empty ]; simpl).

(** The configuration made of a legacy input, property by property. *)
Lemma legacy_run (h : heap) (parsed : val) :
  parsed <> VNull -> parsed <> VUndef -> valid h parsed ->
  isArray h (prop_of h parsed "data") = false ->
  exists config h' item,
    normalize parsed h = (Ok config, h')
    /\ (config <> VNull /\ config <> VUndef /\ valid h' config)
    /\ deref h' (prop_of h' config "data") = Some (OArr [item])
    /\ (item <> VNull /\ item <> VUndef /\ valid h' item)
    /\ (prop_of h' item "fn" = or_else (prop_of h parsed "fn") (VStr "x")
        /\ prop_of h' item "label" = prop_of h parsed "fn"
        /\ prop_of h' item "color" = palette_at 0
        /\ prop_of h' item "graphType" = VStr "polyline"
        /\ prop_of h' item "range" = prop_of h parsed "range"
        /\ prop_of h' item "fnType" = VUndef
        /\ prop_of h' item "vector" = VUndef)
    /\ (prop_of h' config "title" = VUndef
        /\ prop_of h' config "disableZoom" = VUndef
        /\ prop_of h' config "grid" = VBool true
        /\ prop_of h' (prop_of h' config "xAxis") "label" = VUndef
        /\ prop_of h' (prop_of h' config "yAxis") "label" = VUndef).
Proof.
  intros N U W A.
  assert (forall t k, prop_of (h ++ t) parsed k = prop_of h parsed k) as Rd
    by (intros; by apply prop_of_kept).
  unfold normalize, bind. rewrite get_ok by done. rewrite A.
  rewrite !get_ok by done. unfold alloc at 1 2.
  rewrite !get_ok by done.
  rewrite <- !app_assoc. simpl. rewrite Rd.
  destruct (truthy (prop_of h parsed "domain")) eqn:T; unfold ret, alloc;
    rewrite <- !app_assoc; simpl; rewrite !length_app; simpl;
    eexists _, _, _; (split; [reflexivity|]);
    (split; [repeat split; try done; simpl; rewrite length_app; simpl; lia|]);
    read_config; (split; [reflexivity|]);
    (split; [repeat split; try done; simpl; rewrite length_app; simpl; lia|]);
    read_config; repeat split.
Qed.

(** X6: a legacy input (its [data] not an array) ends, after
    normalisation and processing, as exactly one series of kind
    ["linear"], drawn as ["polyline"] in the first palette color, without
    [vector]; its expression and its label both are the top-level [fn],
    or ["x"] when that is missing or empty: the label never is empty and
    never the ordinal ["Function 1"]. *)
Theorem legacy_processed (h : heap) (parsed : val) :
  parsed <> VNull -> parsed <> VUndef -> valid h parsed ->
  isArray h (prop_of h parsed "data") = false ->
  exists config h1 out h2 y,
    normalize parsed h = (Ok config, h1)
    /\ processedData config h1 = (Ok out, h2)
    /\ deref h2 out = Some (OArr [y])
    /\ prop_of h2 y "fnType" = VStr "linear"
    /\ prop_of h2 y "graphType" = VStr "polyline"
    /\ prop_of h2 y "color" = VStr "#2563eb"
    /\ prop_of h2 y "fn" = or_else (prop_of h parsed "fn") (VStr "x")
    /\ prop_of h2 y "label" = or_else (prop_of h parsed "fn") (VStr "x")
    /\ prop_of h2 y "vector" = VUndef.
Proof.
  intros N U W A.
  destruct (legacy_run h parsed N U W A)
    as (config & h1 & item & E & (Nc & Uc & _) & D & (Ni & Ui & Vi)
        & (Pfn & Plabel & Pcolor & Pgt & _ & Pft & Pvec) & _).
  destruct (process_total h1 config [item] Nc Uc D) as (out & h2 & P);
    [by repeat constructor|].
  destruct (process_positions h1 config [item] out h2 Nc Uc D P)
    as (ys & O & L & K).
  destruct (K 0 item eq_refl) as (y & t1 & hk & t2 & Y & Pi & ->).
  destruct ys as [|y' [|? ?]]; try done. injection Y as ->.
  exists config, h1, out, (hk ++ t2), y.
  split; [done|]. split; [done|]. split; [done|].
  destruct (item_props _ _ _ _ _ t2 Pi) as (_ & _ & _ & Kft & Kgt & Kvec & Q).
  destruct (item_color_label _ _ _ _ _ t2 Pi) as [Kc Kl].
  rewrite (prop_of_kept h1 t1 item) in Kft by done.
  rewrite !(prop_of_kept h1 t1 item) in Kgt by done.
  rewrite (prop_of_kept h1 t1 item) in Kvec by done.
  rewrite (prop_of_kept h1 t1 item) in Kc by done.
  rewrite !(prop_of_kept h1 t1 item) in Kl by done.
  rewrite Pft in Kft. rewrite Pgt in Kgt. rewrite Pvec in Kvec.
  rewrite Pcolor in Kc. rewrite Plabel, Pfn in Kl.
  split; [done|]. split; [done|]. split; [done|]. split.
  - rewrite (Q "fn") by listed. rewrite own_props_read by done.
    by rewrite prop_of_kept.
  - split; [|by apply Kvec]. rewrite Kl. unfold or_else.
    by destruct (truthy (prop_of h parsed "fn")).
Qed.

Lemma legacy_processed_witness :
  exists config h1 out h2 y,
    normalize (VRef 0) [OObj (<["fn" := VStr ""]> ∅)] = (Ok config, h1)
    /\ processedData config h1 = (Ok out, h2)
    /\ deref h2 out = Some (OArr [y])
    /\ prop_of h2 y "fn" = VStr "x"
    /\ prop_of h2 y "label" = VStr "x".
Proof.
  destruct (legacy_processed [OObj (<["fn" := VStr ""]> ∅)] (VRef 0))
    as (config & h1 & out & h2 & y & E & P & O & _ & _ & _ & F & La & _);
    try done; [simpl; lia|].
  by exists config, h1, out, h2, y.
Defined.

(** X7: the configuration made of a legacy input has no [title], no
    [disableZoom] and no axis labels, and its [grid] is [true], whatever
    the input says under these names: a legacy input cannot switch the
    grid off or set a title. *)
Theorem legacy_ignores_options (h : heap) (parsed : val) :
  parsed <> VNull -> parsed <> VUndef -> valid h parsed ->
  isArray h (prop_of h parsed "data") = false ->
  exists config h',
    normalize parsed h = (Ok config, h')
    /\ prop_of h' config "title" = VUndef
    /\ prop_of h' config "disableZoom" = VUndef
    /\ prop_of h' config "grid" = VBool true
    /\ prop_of h' (prop_of h' config "xAxis") "label" = VUndef
    /\ prop_of h' (prop_of h' config "yAxis") "label" = VUndef.
Proof.
  intros N U W A.
  destruct (legacy_run h parsed N U W A)
    as (config & h1 & item & E & _ & _ & _ & _ & T & Z & G & X & Y).
  by exists config, h1.
Qed.

Lemma legacy_ignores_options_witness :
  exists config h',
    normalize (VRef 0) titled_legacy = (Ok config, h')
    /\ prop_of titled_legacy (VRef 0) "grid" = VBool false
    /\ prop_of titled_legacy (VRef 0) "title" = VStr "Parabola"
    /\ prop_of h' config "grid" = VBool true
    /\ prop_of h' config "title" = VUndef.
Proof.
  destruct (legacy_ignores_options titled_legacy (VRef 0))
    as (config & h' & E & T & _ & G & _); try done; [simpl; lia|].
  by exists config, h'.
Defined.

End LegacyMore.

(** ** What can fail between decoding and the engine *)

Module FailureMore.
Import Js MathGraph StoreFacts SeriesFacts ClosedFacts Examples Coverage.
Import SeriesClaims SeriesMore LegacyMore.

(** The elements of an array up to its first [null] or [undefined]. *)
Lemma first_nullish (xs : list val) :
  Forall (fun x => x <> VNull /\ x <> VUndef) xs
  \/ exists pre x post,
       xs = pre ++ x :: post
       /\ Forall (fun x => x <> VNull /\ x <> VUndef) pre
       /\ (x = VNull \/ x = VUndef).
Proof.
  induction xs as [|x xs IH]; [by left|].
  destruct (nullish_dec x) as [Nl|Nn].
  - right. by exists [], x, xs.
  - destruct IH as [F|(pre & y & post & -> & F & Nl)].
    + left. by constructor.
    + right. exists (x :: pre), y, post. repeat split; [by constructor|done].
Qed.

(** X8: once the text has decoded to something other than [null],
    normalisation returns, and the series processor can fail in one way
    only: the input was in the advanced shape (its [data] an array, the
    configuration the decoded value itself) and some series is [null] or
    [undefined]; what is thrown is the TypeError of reading [fnType] on
    the first such series.  The legacy shorthand never fails. *)
Theorem only_null_series_fail
    (h : heap) (parsed config : val) (h1 : heap) (e : exn) (h2 : heap) :
  valid h parsed ->
  normalize parsed h = (Ok config, h1) ->
  processedData config h1 = (Throw e, h2) ->
  config = parsed /\ h1 = h
  /\ exists pre x post,
       deref h (prop_of h parsed "data") = Some (OArr (pre ++ x :: post))
       /\ Forall (fun x => x <> VNull /\ x <> VUndef) pre
       /\ (x = VNull \/ x = VUndef)
       /\ e = ErrorObj (type_error_message x "fnType").
Proof.
  intros V Nm Pd.
  destruct (nullish_dec parsed) as [[-> | ->]|[N U]]; try done.
  destruct (isArray h (prop_of h parsed "data")) eqn:A.
  - assert (normalize parsed h = (Ok parsed, h)) as E.
    { unfold normalize, bind. rewrite get_ok by done. by rewrite A. }
    rewrite E in Nm. injection Nm as <- <-. split; [done|]. split; [done|].
    apply isArray_deref in A as [xs D].
    destruct (first_nullish xs) as [F|(pre & x & post & -> & F & Nl)].
    + destruct (process_total h parsed xs N U D F) as (out & h' & P).
      rewrite P in Pd. discriminate Pd.
    + exists pre, x, post. repeat split; try done.
      unfold processedData, bind in Pd. rewrite get_ok in Pd by done.
      unfold array_map in Pd. rewrite D in Pd. unfold bind in Pd.
      destruct (map_from_throws pre post x 0 h F Nl) as [t T].
      rewrite T in Pd. by injection Pd as <- _.
  - destruct (legacy_run h parsed N U V A)
      as (c & h' & item & E & (Nc & Uc & _) & D & (Ni & Ui & _) & _).
    rewrite E in Nm. injection Nm as <- <-.
    destruct (process_total h' c [item] Nc Uc D) as (out & h3 & P);
      [by repeat constructor|].
    rewrite P in Pd. discriminate Pd.
Qed.

Lemma only_null_series_fail_witness :
  exists pre x post,
    deref null_in_the_middle (prop_of null_in_the_middle (VRef 3) "data")
      = Some (OArr (pre ++ x :: post))
    /\ Forall (fun x => x <> VNull /\ x <> VUndef) pre
    /\ (x = VNull \/ x = VUndef).
Proof.
  destruct (only_null_series_fail null_in_the_middle (VRef 3) (VRef 3)
              null_in_the_middle
              (ErrorObj (type_error_message VNull "fnType"))
              (processedData (VRef 3) null_in_the_middle).2)
    as (_ & _ & pre & x & post & D & F & Nl & _).
  - simpl. lia.
  - reflexivity.
  - by vm_compute.
  - by exists pre, x, post.
Defined.

End FailureMore.

(** ** One pass of [drawGraph], stage by stage *)

Module DrawMore.
Import Js MathGraph Component StoreFacts SeriesFacts ClosedFacts Examples.
Import Coverage ClosedMore.

Section Draw.

Context {Chart : Type}.
Variable JSON_parse : string -> heap -> option (val * heap).
Variable functionPlot : plot_options -> heap -> engine_outcome Chart.

Abbreviation drawGraph := (drawGraph JSON_parse functionPlot).

Lemma get_opt_ok (h : heap) (v : val) (k : string) :
  get_opt v k h = (Ok (prop_of h v k), h).
Proof. by destruct v. Qed.

Lemma processedData_not_nullish (h : heap) (config out : val) (h' : heap) :
  processedData config h = (Ok out, h') -> config <> VNull /\ config <> VUndef.
Proof. intros E. split; intros ->; discriminate E. Qed.

Lemma bind_ok {S A B} (m : ST S A) (f : A -> ST S B) (s s' : S) (a : A) :
  m s = (Ok a, s') -> bind m f s = f a s'.
Proof. intros E. unfold bind. by rewrite E. Qed.

Lemma bind_throw {S A B} (m : ST S A) (f : A -> ST S B) (s s' : S) (e : exn) :
  m s = (Throw e, s') -> bind m f s = (Throw e, s').
Proof. intros E. unfold bind. by rewrite E. Qed.

Lemma lift_run {A} (m : M A) (s : component Chart) (r : res A) (h : heap) :
  m (store s) = (r, h) -> lift m s = (r, set_store h s).
Proof. intros E. unfold lift. by rewrite E. Qed.

Ltac norm :=
  cbn [code dimensions error legendItems chartInstance mounted surface
       scheduled store invocations set_code set_dimensions set_error
       set_legendItems set_chartInstance set_mounted set_surface
       set_scheduled set_store record_invocation].

(** The text does not decode: only the error is set. *)
Lemma draw_stops_at_parse (s : component Chart) :
  JSON_parse (code s) (store s) = None ->
  drawGraph s = set_error (Some "Failed to parse diagram") s.
Proof.
  intros P. unfold Component.drawGraph, draw_body.
  erewrite bind_throw; [|unfold parse_code; norm; rewrite P; reflexivity].
  reflexivity.
Qed.

(** Normalisation throws: the surface has not been cleared yet. *)
Lemma draw_stops_at_normalize (s : component Chart)
    (parsed : val) (h1 : heap) (e : exn) (h2 : heap) :
  JSON_parse (code s) (store s) = Some (parsed, h1) ->
  normalize parsed h1 = (Throw e, h2) ->
  drawGraph s = set_error (Some (message_of e)) (set_store h2 s).
Proof.
  intros P Nm. unfold Component.drawGraph, draw_body.
  erewrite bind_ok; [|unfold parse_code; norm; rewrite P; reflexivity].
  erewrite bind_throw; [|apply lift_run; norm; exact Nm].
  reflexivity.
Qed.

(** The series processor throws: the surface has been cleared, the legend
    state is not reached. *)
Lemma draw_stops_at_processing (s : component Chart)
    (parsed : val) (h1 : heap) (config : val) (h2 : heap)
    (e : exn) (h3 : heap) :
  mounted s = true ->
  JSON_parse (code s) (store s) = Some (parsed, h1) ->
  normalize parsed h1 = (Ok config, h2) ->
  processedData config h2 = (Throw e, h3) ->
  drawGraph s =
    set_error (Some (message_of e)) (set_surface None (set_store h3 s)).
Proof.
  intros Mo P Nm Pd. unfold Component.drawGraph, draw_body.
  erewrite bind_ok; [|unfold parse_code; norm; rewrite P; reflexivity].
  erewrite bind_ok; [|apply lift_run; norm; exact Nm].
  erewrite bind_ok; [|reflexivity]. norm. rewrite Mo.
  erewrite bind_ok; [|reflexivity].
  erewrite bind_throw; [|apply lift_run; norm; exact Pd].
  reflexivity.
Qed.

(** Every stage returns: the state in which the engine is invoked, and what
    its outcome makes of it. *)
Lemma draw_pass (s : component Chart)
    (parsed : val) (h1 : heap) (config : val) (h2 : heap)
    (processed : val) (h3 : heap) :
  mounted s = true ->
  JSON_parse (code s) (store s) = Some (parsed, h1) ->
  normalize parsed h1 = (Ok config, h2) ->
  processedData config h2 = (Ok processed, h3) ->
  let xAxis := prop_of h3 config "xAxis" in
  let xd := prop_of h3 xAxis "domain" in
  let h4 := if truthy xd then h3 else h3 ++ [default_domain] in
  let xDomain := if truthy xd then xd else VRef (length h3) in
  let yAxis := prop_of h4 config "yAxis" in
  let yd := prop_of h4 yAxis "domain" in
  let h5 := if truthy yd then h4 else h4 ++ [default_domain] in
  let yDomain := if truthy yd then yd else VRef (length h4) in
  let o :=
    {| po_width := fst (dimensions s);
       po_height := snd (dimensions s);
       po_title := prop_of h5 config "title";
       po_grid := negb (strict_eq (prop_of h5 config "grid") (VBool false));
       po_disableZoom := prop_of h5 config "disableZoom";
       po_xDomain := xDomain;
       po_xLabel := or_else (prop_of h5 xAxis "label") (VStr "x");
       po_yDomain := yDomain;
       po_yLabel := or_else (prop_of h5 yAxis "label") (VStr "y");
       po_data := processed |} in
  let s5 :=
    record_invocation o
      (set_legendItems processed
         (set_surface None (set_store h5 (set_error None s)))) in
  drawGraph s =
    match functionPlot o h5 with
    | Drawn c => set_chartInstance (Some c) (set_surface (Some c) s5)
    | Raised e => set_error (Some (message_of e)) s5
    end.
Proof.
  intros Mo P Nm Pd. destruct (processedData_not_nullish _ _ _ _ Pd) as [N U].
  intros xAxis xd h4 xDomain yAxis yd h5 yDomain o s5.
  unfold Component.drawGraph, draw_body.
  erewrite bind_ok;
    [|unfold parse_code; norm; rewrite P; reflexivity].
  erewrite bind_ok; [|apply lift_run; norm; exact Nm].
  erewrite bind_ok; [|reflexivity]. norm. rewrite Mo.
  erewrite bind_ok; [|reflexivity].
  erewrite bind_ok; [|apply lift_run; norm; exact Pd].
  erewrite bind_ok; [|reflexivity].
  erewrite bind_ok; [|apply lift_run; norm; by apply get_ok].
  erewrite bind_ok; [|apply lift_run; norm; apply get_opt_ok].
  fold xAxis. fold xd.
  assert (domain_or_default xd h3 = (Ok xDomain, h4)) as Dx
    by (unfold domain_or_default, xDomain, h4; by destruct (truthy xd)).
  erewrite bind_ok; [|apply lift_run; norm; exact Dx].
  erewrite bind_ok; [|apply lift_run; norm; by apply get_ok].
  erewrite bind_ok; [|apply lift_run; norm; apply get_opt_ok].
  fold yAxis. fold yd.
  assert (domain_or_default yd h4 = (Ok yDomain, h5)) as Dy
    by (unfold domain_or_default, yDomain, h5; by destruct (truthy yd)).
  erewrite bind_ok; [|apply lift_run; norm; exact Dy].
  erewrite bind_ok; [|reflexivity]. norm. rewrite Mo.
  cbn [negb].
  erewrite bind_ok; [|reflexivity]. norm.
  erewrite bind_ok; [|apply lift_run; norm; by apply get_ok].
  erewrite bind_ok; [|apply lift_run; norm; by apply get_ok].
  erewrite bind_ok; [|apply lift_run; norm; by apply get_ok].
  erewrite bind_ok; [|apply lift_run; norm; apply get_opt_ok].
  erewrite bind_ok; [|apply lift_run; norm; apply get_opt_ok].
  fold o. unfold bind, call_functionPlot. norm.
  destruct (functionPlot o h5); reflexivity.
Qed.

(** One pass invokes the engine at most once, at the dimensions held. *)
Lemma drawGraph_calls (s : component Chart) :
  mounted s = true ->
  invocations (drawGraph s) = invocations s
  \/ exists o,
       invocations (drawGraph s) = invocations s ++ [o]
       /\ po_width o = fst (dimensions s)
       /\ po_height o = snd (dimensions s).
Proof.
  intros Mo.
  destruct (JSON_parse (code s) (store s)) as [[parsed h1]|] eqn:P;
    [|left; by rewrite draw_stops_at_parse].
  destruct (normalize parsed h1) as [[config|e] h2] eqn:Nm;
    [|left; by erewrite draw_stops_at_normalize].
  destruct (processedData config h2) as [[processed|e] h3] eqn:Pd;
    [|left; by erewrite draw_stops_at_processing].
  right.
  pose proof (draw_pass s parsed h1 config h2 processed h3 Mo P Nm Pd) as E.
  cbv zeta in E. rewrite E. eexists.
  match goal with |- context [functionPlot ?oo ?hh] =>
    destruct (functionPlot oo hh)
  end; norm; by repeat split.
Qed.

Lemma processedData_array (h : heap) (config out : val) (h' : heap) :
  processedData config h = (Ok out, h') ->
  exists xs ys,
    deref h (prop_of h config "data") = Some (OArr xs)
    /\ deref h' out = Some (OArr ys)
    /\ length ys = length xs.
Proof.
  intros E. destruct (processedData_not_nullish _ _ _ _ E) as [N U].
  destruct (deref h (prop_of h config "data")) as [[xs|m]|] eqn:D.
  - destruct (process_positions h config xs out h' N U D E) as (ys & O & L & _).
    by exists xs, ys.
  - unfold processedData, bind in E. rewrite get_ok in E by done.
    unfold array_map in E. rewrite D in E.
    by destruct (prop_of h config "data").
  - unfold processedData, bind in E. rewrite get_ok in E by done.
    unfold array_map in E. rewrite D in E.
    by destruct (prop_of h config "data").
Qed.

(** X9: when the text decodes and normalisation and the series processor
    return, one pass of [drawGraph] invokes the engine exactly once, with
    the processed array as [data] and the dimensions held as [width] and
    [height]; the same array becomes [legendItems], and it has one entry
    per element of [config.data], whatever the engine then does. *)
Theorem pass_reaches_engine (s : component Chart)
    (parsed : val) (h1 : heap) (config : val) (h2 : heap)
    (processed : val) (h3 : heap) :
  mounted s = true ->
  JSON_parse (code s) (store s) = Some (parsed, h1) ->
  normalize parsed h1 = (Ok config, h2) ->
  processedData config h2 = (Ok processed, h3) ->
  exists o xs,
    invocations (drawGraph s) = invocations s ++ [o]
    /\ po_data o = processed
    /\ po_width o = fst (dimensions s)
    /\ po_height o = snd (dimensions s)
    /\ legendItems (drawGraph s) = processed
    /\ deref h2 (prop_of h2 config "data") = Some (OArr xs)
    /\ legend_length (drawGraph s) = length xs.
Proof.
  intros Mo P Nm Pd.
  pose proof (draw_pass s parsed h1 config h2 processed h3 Mo P Nm Pd) as E.
  cbv zeta in E. rewrite E. clear E.
  destruct (processedData_array _ _ _ _ Pd) as (xs & ys & D & O & L).
  eexists _, xs.
  assert (forall t, deref (h3 ++ t) processed = Some (OArr ys)) as Ot.
  { intros t. rewrite deref_kept; [done|].
    destruct processed; try done. simpl in *. by eapply lookup_lt_Some. }
  match goal with |- context [functionPlot ?oo ?hh] =>
    assert (deref hh processed = Some (OArr ys)) as Oh;
      [|destruct (functionPlot oo hh)]
  end.
  { repeat match goal with |- context [truthy ?d] => destruct (truthy d) end;
      rewrite <- ?app_assoc; try apply Ot.
    specialize (Ot []). by rewrite app_nil_r in Ot. }
  all: unfold legend_length; norm; rewrite Oh; by repeat split.
Qed.

(** X10: what the outcome of the engine makes of the pass.  When it returns
    a chart, the error stays cleared and the chart is kept in
    [chartInstance] and is what the surface holds.  When it throws, the
    error is the message of the [Error] thrown, or ["Invalid graph data."]
    for any other thrown value, and [chartInstance] keeps the chart of the
    earlier pass; in both cases [legendItems] is already the new array. *)
Theorem engine_outcome_handled (s : component Chart)
    (parsed : val) (h1 : heap) (config : val) (h2 : heap)
    (processed : val) (h3 : heap) :
  mounted s = true ->
  JSON_parse (code s) (store s) = Some (parsed, h1) ->
  normalize parsed h1 = (Ok config, h2) ->
  processedData config h2 = (Ok processed, h3) ->
  exists o,
    invocations (drawGraph s) = invocations s ++ [o]
    /\ legendItems (drawGraph s) = processed
    /\ match functionPlot o (store (drawGraph s)) with
       | Drawn c =>
           error (drawGraph s) = None
           /\ chartInstance (drawGraph s) = Some c
           /\ surface (drawGraph s) = Some c
       | Raised e =>
           error (drawGraph s) =
             Some (match e with
                   | ErrorObj m => m
                   | OtherValue => "Invalid graph data."
                   end)
           /\ chartInstance (drawGraph s) = chartInstance s
       end.
Proof.
  intros Mo P Nm Pd.
  pose proof (draw_pass s parsed h1 config h2 processed h3 Mo P Nm Pd) as E.
  cbv zeta in E. rewrite E. clear E.
  eexists.
  match goal with |- context [functionPlot ?oo ?hh] =>
    destruct (functionPlot oo hh) as [c|e] eqn:F
  end; norm; rewrite F; by repeat split.
Qed.

(** X11: the options handed to the engine.  [title] and [disableZoom] are
    the configuration's own values; [grid] is off only when the
    configuration's [grid] is exactly [false]; a label that is missing or
    falsy becomes ["x"], respectively ["y"]; a domain that is missing or
    falsy becomes a new array [[-10, 10]], and when both are defaulted the
    two arrays are different objects. *)
Theorem option_defaults (s : component Chart)
    (parsed : val) (h1 : heap) (config : val) (h2 : heap)
    (processed : val) (h3 : heap) :
  mounted s = true ->
  JSON_parse (code s) (store s) = Some (parsed, h1) ->
  normalize parsed h1 = (Ok config, h2) ->
  processedData config h2 = (Ok processed, h3) ->
  closed h2 -> valid h2 config ->
  let xd := prop_of h2 (prop_of h2 config "xAxis") "domain" in
  let yd := prop_of h2 (prop_of h2 config "yAxis") "domain" in
  exists o,
    invocations (drawGraph s) = invocations s ++ [o]
    /\ po_title o = prop_of h2 config "title"
    /\ po_disableZoom o = prop_of h2 config "disableZoom"
    /\ po_grid o = negb (strict_eq (prop_of h2 config "grid") (VBool false))
    /\ po_xLabel o =
         or_else (prop_of h2 (prop_of h2 config "xAxis") "label") (VStr "x")
    /\ po_yLabel o =
         or_else (prop_of h2 (prop_of h2 config "yAxis") "label") (VStr "y")
    /\ (if truthy xd then po_xDomain o = xd
        else deref h3 (po_xDomain o) = None
             /\ deref (store (drawGraph s)) (po_xDomain o)
                = Some default_domain)
    /\ (if truthy yd then po_yDomain o = yd
        else deref h3 (po_yDomain o) = None
             /\ deref (store (drawGraph s)) (po_yDomain o)
                = Some default_domain)
    /\ (truthy xd = false -> truthy yd = false ->
        po_xDomain o <> po_yDomain o).
Proof.
  intros Mo P Nm Pd C V xd yd.
  pose proof (draw_pass s parsed h1 config h2 processed h3 Mo P Nm Pd) as E.
  cbv zeta in E.
  destruct (processedData_closed _ _ _ _ C Pd) as (_ & _ & [u ->]).
  assert (forall t k, prop_of (h2 ++ t) config k = prop_of h2 config k) as Rc
    by (intros; by apply prop_of_kept).
  assert (forall t a k,
            prop_of (h2 ++ t) (prop_of h2 config a) k
            = prop_of h2 (prop_of h2 config a) k) as Ra
    by (intros; apply prop_of_kept; by apply closed_prop_of).
  rewrite !Rc, !Ra in E. fold xd in E.
  destruct (truthy xd) eqn:Tx; cbv beta iota in E;
    rewrite <- ?app_assoc in E; rewrite ?Rc, ?Ra in E; fold yd in E;
    destruct (truthy yd) eqn:Ty; cbv beta iota in E;
    rewrite <- ?app_assoc in E; rewrite ?Rc, ?Ra in E;
    rewrite E; eexists;
    match goal with |- context [functionPlot ?oo ?hh] =>
      destruct (functionPlot oo hh)
    end; norm; repeat split; try done.
  all: simpl; rewrite ?length_app; simpl.
  all: try (intros _ _ [= Hl]; lia).
  all: try (apply lookup_ge_None; rewrite ?length_app; simpl; lia).
  all: rewrite lookup_app_r by lia; rewrite lookup_app_r by lia.
  all: match goal with |- _ !! ?i = _ =>
         first [replace i with 0 by lia|replace i with 1 by lia]
       end; reflexivity.
Qed.

(** X12: when the series processor throws, the pass ends with the message
    of what was thrown as the error; the engine is not invoked,
    [legendItems] and [chartInstance] keep what the earlier pass left, but
    the surface has already been emptied. *)
Theorem processing_failure (s : component Chart)
    (parsed : val) (h1 : heap) (config : val) (h2 : heap)
    (e : exn) (h3 : heap) :
  mounted s = true ->
  JSON_parse (code s) (store s) = Some (parsed, h1) ->
  normalize parsed h1 = (Ok config, h2) ->
  processedData config h2 = (Throw e, h3) ->
  error (drawGraph s) = Some (message_of e)
  /\ invocations (drawGraph s) = invocations s
  /\ legendItems (drawGraph s) = legendItems s
  /\ chartInstance (drawGraph s) = chartInstance s
  /\ surface (drawGraph s) = None.
Proof.
  intros Mo P Nm Pd.
  rewrite (draw_stops_at_processing s parsed h1 config h2 e h3 Mo P Nm Pd).
  by repeat split.
Qed.

End Draw.

Lemma initial_store_closed : closed [OArr []].
Proof.
  apply (closed_alloc [] (OArr [])); [apply closed_nil|].
  intros v Hv. by apply elem_of_nil in Hv.
Qed.

Lemma pipeline_closed (t : string) (h0 : heap) (parsed : val) (h1 : heap)
    (config : val) (h2 : heap) :
  closed h0 ->
  Json.JSON_parse t h0 = Some (parsed, h1) ->
  normalize parsed h1 = (Ok config, h2) ->
  closed h2 /\ valid h2 config.
Proof.
  intros C P N. destruct (decoded_closed _ _ _ _ C P) as (C1 & V1 & _).
  by eapply normalize_closed.
Qed.

(** An equation between closed terms, by evaluating both sides. *)
Ltac by_evaluation :=
  match goal with |- ?l = _ => vm_cast_no_check (@eq_refl _ l) end.

Lemma pass_reaches_engine_witness :
  let s := play "{'data':[{'fn':'sin(x)'},{'fn':'cos(x)','color':'#000'}]}"
             [Resize [(300, 200)%Q]] in
  exists o,
    invocations (drawGraph Json.JSON_parse always_draws s) = [o]
    /\ po_width o = 300%Q
    /\ legend_length (drawGraph Json.JSON_parse always_draws s) = 2.
Proof.
  intros s.
  pose (d := decoded_of (Json.JSON_parse (code s) (store s))).
  pose (n := normalize d.1 d.2).
  pose (p := processedData (value_of n) n.2).
  destruct (pass_reaches_engine Json.JSON_parse always_draws s
              d.1 d.2 (value_of n) n.2 (value_of p) p.2)
    as (o & xs & I & _ & W & _ & _ & D & L); try by_evaluation.
  exists o. split; [rewrite I; by_evaluation|].
  split; [rewrite W; by_evaluation|].
  rewrite L.
  assert (deref n.2 (prop_of n.2 (value_of n) "data")
          = Some (OArr [VRef 1; VRef 2])) as D' by by_evaluation.
  rewrite D' in D. by injection D as <-.
Defined.

Lemma engine_outcome_handled_witness :
  let s := play "{'fn':'x^2'}" [Resize [(300, 200)%Q]] in
  error (drawGraph Json.JSON_parse throws_a_string s)
    = Some "Invalid graph data."
  /\ chartInstance (drawGraph Json.JSON_parse throws_a_string s) = None.
Proof.
  intros s.
  pose (d := decoded_of (Json.JSON_parse (code s) (store s))).
  pose (n := normalize d.1 d.2).
  pose (p := processedData (value_of n) n.2).
  destruct (engine_outcome_handled Json.JSON_parse throws_a_string s
              d.1 d.2 (value_of n) n.2 (value_of p) p.2)
    as (o & I & _ & O); try by_evaluation.
  unfold throws_a_string in O at 1. destruct O as (E & Ch).
  split; [exact E|]. rewrite Ch. by_evaluation.
Defined.

Lemma option_defaults_witness :
  let s := play "{'data':[{'fn':'x'}],'grid':null,'xAxis':{'label':''}}"
             [Resize [(300, 200)%Q]] in
  exists o,
    invocations (drawGraph Json.JSON_parse always_draws s) = [o]
    /\ po_grid o = true
    /\ po_xLabel o = VStr "x"
    /\ po_xDomain o <> po_yDomain o.
Proof.
  intros s.
  pose (d := decoded_of (Json.JSON_parse (code s) (store s))).
  pose (n := normalize d.1 d.2).
  pose (p := processedData (value_of n) n.2).
  destruct (option_defaults Json.JSON_parse always_draws s
              d.1 d.2 (value_of n) n.2 (value_of p) p.2)
    as (o & I & _ & _ & G & X & _ & _ & _ & Ne); try by_evaluation.
  - refine (proj1 (pipeline_closed (code s) (store s) d.1 d.2 (value_of n) n.2
                     initial_store_closed _ _)); by_evaluation.
  - refine (proj2 (pipeline_closed (code s) (store s) d.1 d.2 (value_of n) n.2
                     initial_store_closed _ _)); by_evaluation.
  - exists o. split; [rewrite I; by_evaluation|].
    split; [rewrite G; by_evaluation|].
    split; [rewrite X; by_evaluation|].
    apply Ne; by_evaluation.
Defined.

Lemma processing_failure_witness :
  let s := play "{'fn':'x'}" [Resize [(300, 200)%Q]; Frame;
                              SetCode (Json.text "{'data':[null]}")] in
  surface s = Some 11
  /\ error (drawGraph Json.JSON_parse always_draws s)
     = Some "Cannot read properties of null (reading 'fnType')"
  /\ surface (drawGraph Json.JSON_parse always_draws s) = None
  /\ legend_length (drawGraph Json.JSON_parse always_draws s) = 1.
Proof.
  intros s.
  pose (d := decoded_of (Json.JSON_parse (code s) (store s))).
  pose (n := normalize d.1 d.2).
  destruct (processing_failure Json.JSON_parse always_draws s
              d.1 d.2 (value_of n) n.2
              (ErrorObj (type_error_message VNull "fnType"))
              (processedData (value_of n) n.2).2)
    as (E & _ & L & _ & Su); try by_evaluation.
  split; [by_evaluation|]. split; [rewrite E; by_evaluation|].
  split; [exact Su|].
  by_evaluation.
Defined.

End DrawMore.

(** ** The store only grows *)

Module StoreMore.
Import Js MathGraph Component StoreFacts SeriesFacts ClosedFacts Examples.
Import Coverage DrawMore.

Lemma allocates_ret {A} (a : A) : allocates (ret a).
Proof. intros h r h' [= _ <-]. exists []. by rewrite app_nil_r. Qed.

Lemma allocates_throw {A} (e : exn) : allocates (throw (A := A) e).
Proof. intros h r h' [= _ <-]. exists []. by rewrite app_nil_r. Qed.

Lemma allocates_alloc (o : obj) : allocates (alloc o).
Proof. intros h r h' [= _ <-]. by exists [o]. Qed.

Lemma allocates_bind {A B} (m : M A) (f : A -> M B) :
  allocates m -> (forall a, allocates (f a)) -> allocates (bind m f).
Proof.
  intros Hm Hf h r h'. unfold bind.
  destruct (m h) as [[a|e] h1] eqn:E; destruct (Hm _ _ _ E) as [t ->].
  - intros E'. destruct (Hf a _ _ _ E') as [u ->].
    exists (t ++ u). by rewrite app_assoc.
  - intros [= _ <-]. by exists t.
Qed.

Lemma allocates_get (v : val) (k : string) : allocates (get v k).
Proof.
  intros h r h' E. exists []. rewrite app_nil_r.
  destruct v; by injection E as _ <-.
Qed.

Ltac allocating :=
  repeat first
    [ apply allocates_bind; [|intros ?]
    | apply allocates_get | apply allocates_alloc | apply allocates_ret
    | apply allocates_throw
    | match goal with
      | |- allocates (if ?b then _ else _) => destruct b
      end ].

Lemma allocates_normalize (parsed : val) : allocates (normalize parsed).
Proof.
  unfold normalize. apply allocates_bind; [apply allocates_get|].
  intros data h r h'. destruct (isArray h data); [apply allocates_ret|].
  revert h r h'. allocating.
Qed.

Lemma allocates_map_from (xs : list val) (i : nat) :
  allocates (map_from process_item xs i).
Proof.
  revert i. induction xs as [|x xs IH]; intros i; simpl;
    [apply allocates_ret|].
  apply allocates_bind; [apply process_item_allocates|]. intros y.
  apply allocates_bind; [apply IH|]. intros ys. apply allocates_ret.
Qed.

Lemma allocates_processedData (config : val) :
  allocates (processedData config).
Proof.
  unfold processedData. apply allocates_bind; [apply allocates_get|].
  intros data h r h'. unfold array_map.
  destruct (deref h data) as [[xs|m]|].
  - revert h r h'. apply allocates_bind; [apply allocates_map_from|].
    intros ys. apply allocates_alloc.
  - destruct data; apply allocates_throw.
  - destruct data; apply allocates_throw.
Qed.

(** X13: neither normalisation nor the series processor changes or
    removes an object that exists: whether they return or throw, the
    decoded configuration and its series are afterwards what they were,
    and all that is made is made anew. *)
Theorem config_not_mutated (v : val) (h : heap) (l : loc) (o : obj) :
  h !! l = Some o ->
  (normalize v h).2 !! l = Some o /\ (processedData v h).2 !! l = Some o.
Proof.
  intros L. split.
  - destruct (normalize v h) as [r h'] eqn:E.
    destruct (allocates_normalize _ _ _ _ E) as [t ->].
    simpl. by apply lookup_app_l_Some.
  - destruct (processedData v h) as [r h'] eqn:E.
    destruct (allocates_processedData _ _ _ _ E) as [t ->].
    simpl. by apply lookup_app_l_Some.
Qed.

Lemma config_not_mutated_witness :
  (normalize (VRef 0) legacy_square).2 !! 0
    = Some (OObj (<["fn" := VStr "x^2"]> ∅))
  /\ (processedData (VRef 3) two_series).2 !! 1
    = Some (OObj (<["color" := VStr "#000"]> (<["fn" := VStr "cos(x)"]> ∅))).
Proof.
  split.
  - apply (config_not_mutated (VRef 0) legacy_square 0). reflexivity.
  - apply (config_not_mutated (VRef 3) two_series 1). reflexivity.
Defined.

Section Pass.

Context {Chart : Type}.
Variable JSON_parse : string -> heap -> option (val * heap).
Variable functionPlot : plot_options -> heap -> engine_outcome Chart.

Abbreviation grows m :=
  (forall (s : component Chart) r s',
     m s = (r, s') -> exists u, store s' = store s ++ u).

Lemma grows_bind {A B}
    (m : ST (component Chart) A) (f : A -> ST (component Chart) B) :
  grows m -> (forall a, grows (f a)) -> grows (bind m f).
Proof.
  intros Hm Hf s r s'. unfold bind.
  destruct (m s) as [[a|e] s1] eqn:E; destruct (Hm _ _ _ E) as [t Et].
  - intros E'. destruct (Hf a _ _ _ E') as [u ->].
    exists (t ++ u). by rewrite Et, app_assoc.
  - intros [= _ <-]. by exists t.
Qed.

Lemma grows_lift {A} (m : M A) : allocates m -> grows (lift m).
Proof.
  intros Hm s r s'. unfold lift. destruct (m (store s)) as [r' h] eqn:E.
  intros [= _ <-]. simpl. by eapply Hm.
Qed.

Lemma grows_still {A} (m : ST (component Chart) A) :
  (forall s r s', m s = (r, s') -> store s' = store s) -> grows m.
Proof.
  intros Hm s r s' E. exists []. rewrite app_nil_r. by eapply Hm.
Qed.

Lemma allocates_get_opt (v : val) (k : string) : allocates (get_opt v k).
Proof.
  intros h r h' E. exists []. rewrite app_nil_r.
  destruct v; by injection E as _ <-.
Qed.

Lemma allocates_domain_or_default (d : val) :
  allocates (domain_or_default d).
Proof. unfold domain_or_default. allocating. Qed.

Lemma grows_draw_body (c : string) (h0 : heap) :
  (forall p h, JSON_parse c h0 = Some (p, h) -> exists u, h = h0 ++ u) ->
  forall s r s',
    code s = c -> store s = h0 ->
    draw_body JSON_parse functionPlot s = (r, s') ->
    exists u, store s' = store s ++ u.
Proof.
  intros Hp s r s' <- <-. revert s' r.
  assert (forall r s', parse_code JSON_parse s = (r, s') ->
            exists u, store s' = store s ++ u) as G.
  { intros r s'. unfold parse_code.
    destruct (JSON_parse (code s) (store s)) as [[p h]|] eqn:P.
    - intros [= _ <-]. simpl. by eapply Hp.
    - intros [= _ <-]. exists []. by rewrite app_nil_r. }
  intros s' r. unfold draw_body, bind at 1.
  destruct (parse_code JSON_parse s) as [[parsed|e] s1] eqn:P;
    destruct (G _ _ eq_refl) as [t Et]; [|intros [= _ <-]; by exists t].
  intros E.
  assert (exists u, store s' = store s1 ++ u) as [u ->];
    [|exists (t ++ u); by rewrite Et, app_assoc].
  revert E. generalize s1 r s'. clear.
  repeat first
    [ apply grows_bind; [|intros ?]
    | apply grows_lift;
        first [ apply allocates_normalize | apply allocates_processedData
              | apply allocates_get | apply allocates_get_opt
              | apply allocates_domain_or_default ]
    | match goal with
      | |- forall s r s', (if ?b then _ else _) s = _ -> _ => destruct b
      end
    | apply grows_still; intros s r s';
        first [ by intros [= _ <-]
              | unfold call_functionPlot;
                destruct (functionPlot _ _); by intros [= _ <-] ] ].
Qed.

(** X14: a pass of [drawGraph] changes and removes no object of the store,
    whatever the text is and wherever the pass stops, provided the decoder
    itself only adds to the store: what earlier passes left there, such as
    the series [legendItems] points to, stays as it was. *)
Theorem pass_keeps_objects (s : component Chart) (l : loc) (o : obj) :
  (forall p h, JSON_parse (code s) (store s) = Some (p, h) ->
     exists u, h = store s ++ u) ->
  store s !! l = Some o ->
  store (drawGraph JSON_parse functionPlot s) !! l = Some o.
Proof.
  intros Hp L. unfold drawGraph.
  destruct (draw_body JSON_parse functionPlot (set_error None s))
    as [[u|e] s'] eqn:E;
    destruct (grows_draw_body (code s) (store s) Hp (set_error None s) _ _
                eq_refl eq_refl E)
      as [t Et]; simpl in *; rewrite Et; by apply lookup_app_l_Some.
Qed.

End Pass.

Lemma pass_keeps_objects_witness :
  let s := play "{'data':[null]}" [Resize [(300, 200)%Q]] in
  store (drawGraph Json.JSON_parse always_draws s) !! 0 = Some (OArr []).
Proof.
  intros s.
  apply (pass_keeps_objects Json.JSON_parse always_draws s 0 (OArr [])).
  - intros p h P.
    destruct (decoded_closed (code s) (store s) h p initial_store_closed P)
      as (_ & _ & U).
    exact U.
  - by_evaluation.
Defined.

End StoreMore.

(** ** The render lifecycle, continued *)

Module LifecycleMore.
Import Js MathGraph Component StoreFacts Examples Coverage.
Import LifecycleClaims DrawMore.

Section Lifecycle.

Context {Chart : Type}.
Variable JSON_parse : string -> heap -> option (val * heap).
Variable functionPlot : plot_options -> heap -> engine_outcome Chart.

Abbreviation drawGraph := (drawGraph JSON_parse functionPlot).
Abbreviation step := (step JSON_parse functionPlot).
Abbreviation run := (run JSON_parse functionPlot).

Abbreviation positive_call :=
  (fun o => positive_size (po_width o, po_height o) = true).

Lemma draw_effect_invocations (s : component Chart) :
  invocations (draw_effect s) = invocations s.
Proof. unfold draw_effect. by destruct (negb _ || _ || _). Qed.

(** The guard of the draw effect compares with [0]; as the dimensions held
    are [0, 0] or positive, what it lets through is positive. *)
Lemma draw_effect_scheduled (s : component Chart) :
  sized s -> scheduled (draw_effect s) = true ->
  positive_size (dimensions s) = true.
Proof.
  intros [Z|Z]; [|done]. unfold draw_effect. simpl. rewrite Z. simpl.
  rewrite orb_true_r. simpl. done.
Qed.

Lemma step_calls (s : component Chart) (ev : event) :
  sized s ->
  (scheduled s = true -> positive_size (dimensions s) = true) ->
  Forall positive_call (invocations s) ->
  (scheduled (step s ev) = true ->
   positive_size (dimensions (step s ev)) = true)
  /\ Forall positive_call (invocations (step s ev)).
Proof.
  intros Z Sp F. unfold Component.step.
  destruct (mounted s) eqn:Mo; simpl; [|done].
  destruct ev as [entries|c| |].
  - destruct (observed entries) as [d|] eqn:O; [|done].
    rewrite draw_effect_invocations, draw_effect_dimensions. simpl.
    split; [|done]. intros _. by apply observed_positive in O.
  - destruct (String.eqb c (code s)); [done|].
    rewrite draw_effect_invocations, draw_effect_dimensions. simpl.
    split; [|done]. intros S. by apply draw_effect_scheduled in S.
  - destruct (scheduled s) eqn:S; [|split; [by rewrite S|done]].
    destruct (drawGraph_same_inputs JSON_parse functionPlot
                (set_scheduled false s)) as (_ & D & _ & S').
    simpl in D, S'. rewrite S'. split; [done|].
    destruct (drawGraph_calls JSON_parse functionPlot
                (set_scheduled false s) Mo) as [->|(o & -> & W & H)];
      [done|].
    apply Forall_app. split; [done|]. apply Forall_singleton.
    rewrite W, H. simpl. rewrite <- surjective_pairing. by apply Sp.
  - done.
Qed.

Lemma run_calls (s : component Chart) (evs : list event) :
  sized s ->
  (scheduled s = true -> positive_size (dimensions s) = true) ->
  Forall positive_call (invocations s) ->
  Forall positive_call (invocations (run s evs)).
Proof.
  revert s. induction evs as [|ev evs IH]; intros s Z Sp F; simpl; [done|].
  destruct (step_calls s ev Z Sp F) as [Sp' F'].
  apply IH; [by apply sized_step|done|done].
Qed.

(** X15: in every state the component reaches from its mount, whatever
    the events are, each invocation of the engine so far was made with a
    positive width and a positive height. *)
Theorem engine_sizes_positive (c : string) (evs : list event) :
  Forall (fun o => (0 < po_width o)%Q /\ (0 < po_height o)%Q)
    (invocations (run (mount c) evs)).
Proof.
  eapply Forall_impl.
  - apply run_calls; [by left|done|by apply Forall_nil].
  - intros o P. by apply positive_size_spec in P.
Qed.







Lemma observed_tail (es : list (Q * Q)) (upd : option (Q * Q)) :
  Forall (fun e => positive_size e = false) es ->
  fold_left (fun upd d => if positive_size d then Some d else upd) es upd
  = upd.
Proof.
  intros F. revert upd. induction F as [|e es Pe F IH]; intros upd; simpl;
    [done|]. by rewrite Pe, IH.
Qed.

(** X19: of the entries of one observer callback, the last one with a
    positive width and height is the one taken over, whatever precedes it
    and however many entries without a positive size follow it. *)
Theorem last_positive_entry_wins (es es' : list (Q * Q)) (d : Q * Q) :
  positive_size d = true ->
  Forall (fun e => positive_size e = false) es' ->
  observed (es ++ d :: es') = Some d.
Proof.
  intros P F. unfold observed. rewrite fold_left_app. simpl. rewrite P.
  by apply observed_tail.
Qed.

End Lifecycle.


Lemma last_positive_entry_wins_witness :
  observed [(300, 200); (640, 480); (0, 480); (640, 0)]%Q
    = Some (640, 480)%Q.
Proof.
  apply (last_positive_entry_wins [(300, 200)%Q] [(0, 480); (640, 0)]%Q
           (640, 480)%Q); [reflexivity|].
  repeat constructor.
Defined.

End LifecycleMore.
